(** * rewtf-registry: the registry validator of [scripts/bin/validate-registry.ts]

    A shallow embedding of the class [RegistryValidator] and theorems about
    it.  The source file holds two revisions of the class: the first one
    (lines 6-288) treats [wallets] as optional and has the Flow ecosystem
    check, the second one (lines 334-481) requires [wallets] and has no
    ecosystem check.  The methods the two revisions share word for word are
    defined once; the others live in the modules [Eco] and [Strict].

    Modelling decisions, all in one place:
    - a JavaScript string is a [string] of code units below 256 (Latin-1);
      [trim] and [toLowerCase] are the JavaScript ones restricted to it;
    - a value produced by [yaml.load] or [JSON.parse] is a [JsVal]; numbers
      are integers; the keys of a mapping are own properties;
    - a method is a program of the free monad [Prog]: it appends to
      [this.errors], reads it, awaits the Octokit client, calls
      [JSON.parse], or throws.  [run] executes a program against a [Host]
      and an instance state;
    - [validateRegistry] takes what reading and parsing the file came to,
      in the place of the path of the file. *)

From Stdlib Require Import String Ascii List ZArith Bool Lia DecimalString.
From ExtLib Require Import Structures.Monad.
Import ListNotations.
Import MonadNotation.
Local Open Scope string_scope.
Local Open Scope monad_scope.

Set Implicit Arguments.

(** ** JavaScript strings *)

Module Js.

(** White space of [String.prototype.trim] among the code units below 256:
    TAB, LF, VT, FF, CR, SPACE and NBSP. *)
Definition is_white (c : ascii) : bool :=
  let n := nat_of_ascii c in
  (((9 <=? n) && (n <=? 13)) || (n =? 32) || (n =? 160))%nat.

Fixpoint trimStart (s : string) : string :=
  match s with
  | String c s' => if is_white c then trimStart s' else s
  | EmptyString => EmptyString
  end.

(** [trimEnd] drops the white space that nothing but white space follows. *)
Fixpoint trimEnd (s : string) : string :=
  match s with
  | String c s' =>
      match trimEnd s' with
      | EmptyString => if is_white c then EmptyString else String c EmptyString
      | t => String c t
      end
  | EmptyString => EmptyString
  end.

Definition trim (s : string) : string := trimEnd (trimStart s).

(** [String.prototype.toLowerCase] on Latin-1: A-Z, and the accented
    capitals 192-222 apart from the multiplication sign 215. *)
Definition lower_char (c : ascii) : ascii :=
  let n := nat_of_ascii c in
  if (((65 <=? n) && (n <=? 90))
      || ((192 <=? n) && (n <=? 222) && negb (n =? 215)))%nat
  then ascii_of_nat (n + 32) else c.

Fixpoint toLowerCase (s : string) : string :=
  match s with
  | String c s' => String (lower_char c) (toLowerCase s')
  | EmptyString => EmptyString
  end.

(** [s.startsWith(p)] *)
Fixpoint startsWith (s p : string) {struct p} : bool :=
  match p, s with
  | EmptyString, _ => true
  | String a p', String b s' => Ascii.eqb a b && startsWith s' p'
  | String _ _, EmptyString => false
  end.

(** [s.includes(p)] *)
Fixpoint includes (s p : string) : bool :=
  startsWith s p ||
  match s with
  | String _ s' => includes s' p
  | EmptyString => false
  end.

(** The rest of [s] after the prefix [p], when [s] starts with [p]. *)
Fixpoint afterPrefix (p s : string) {struct p} : option string :=
  match p, s with
  | EmptyString, _ => Some s
  | String a p', String b s' => if Ascii.eqb a b then afterPrefix p' s' else None
  | String _ _, EmptyString => None
  end.

(** The longest prefix of [s] whose characters satisfy [f], and the rest. *)
Fixpoint span (f : ascii -> bool) (s : string) : string * string :=
  match s with
  | String c s' =>
      if f c then let (a, b) := span f s' in (String c a, b)
      else (EmptyString, s)
  | EmptyString => (EmptyString, EmptyString)
  end.

Definition is_hex (c : ascii) : bool :=
  let n := nat_of_ascii c in
  (((48 <=? n) && (n <=? 57)) || ((65 <=? n) && (n <=? 70))
   || ((97 <=? n) && (n <=? 102)))%nat.

Fixpoint all_chars (f : ascii -> bool) (s : string) : bool :=
  match s with
  | String c s' => f c && all_chars f s'
  | EmptyString => true
  end.

(** [/^0x[0-9a-fA-F]{n}$/.test(s)]: no flag, so [$] is the end of the
    input only. *)
Definition test_0x_hex (n : nat) (s : string) : bool :=
  match afterPrefix "0x" s with
  | Some digits => (String.length digits =? n)%nat && all_chars is_hex digits
  | None => false
  end.

(** [String(n)] for an integer. *)
Definition show_Z (n : Z) : string := NilZero.string_of_int (Z.to_int n).

End Js.

(** ** Values of [yaml.load] and [JSON.parse] *)

#[warnings="-register-all"]
Inductive JsVal : Type :=
| JUndefined
| JNull
| JBool (b : bool)
| JNum (n : Z)
| JStr (s : string)
| JArr (items : list JsVal)
| JObj (fields : list (string * JsVal)).

(** ToBoolean *)
Definition truthy (v : JsVal) : bool :=
  match v with
  | JUndefined | JNull => false
  | JBool b => b
  | JNum n => negb (n =? 0)%Z
  | JStr s => negb (s =? EmptyString)
  | JArr _ | JObj _ => true
  end.

(** [typeof v === "string"], [typeof v === "object"], [Array.isArray(v)] *)
Definition typeof_string (v : JsVal) : bool :=
  match v with JStr _ => true | _ => false end.

Definition typeof_object (v : JsVal) : bool :=
  match v with JNull | JArr _ | JObj _ => true | _ => false end.

Definition isArray (v : JsVal) : bool :=
  match v with JArr _ => true | _ => false end.

Definition elements (v : JsVal) : list JsVal :=
  match v with JArr items => items | _ => [] end.

(** The value of the key [k] in a mapping, [undefined] when the mapping has
    no such key.  A mapping lists each of its keys once. *)
Fixpoint lookup (k : string) (fields : list (string * JsVal)) : JsVal :=
  match fields with
  | (k', v) :: rest => if k =? k' then v else lookup k rest
  | [] => JUndefined
  end.

Definition has_key (k : string) (fields : list (string * JsVal)) : bool :=
  existsb (fun kv => k =? fst kv) fields.

(** [v[k]] for a [v] that is neither [null] nor [undefined], and a key [k]
    that no prototype defines (every key this program reads, apart from
    [length], [filter], [match] and [trim], which are modelled where they
    are used). *)
Definition prop (v : JsVal) (k : string) : JsVal :=
  match v with
  | JObj fields => lookup k fields
  | _ => JUndefined
  end.

(** [v?.[k]] *)
Definition optional_prop (v : JsVal) (k : string) : JsVal :=
  match v with
  | JUndefined | JNull => JUndefined
  | _ => prop v k
  end.

(** ToString, as a template literal applies it; [None] is the TypeError
    of an object that cannot be converted to a primitive: a mapping with a
    key [toString] of its own (never a function) hides
    [Object.prototype.toString], and [valueOf] gives the object back. *)
Fixpoint toString (v : JsVal) : option string :=
  match v with
  | JUndefined => Some "undefined"
  | JNull => Some "null"
  | JBool true => Some "true"
  | JBool false => Some "false"
  | JNum n => Some (Js.show_Z n)
  | JStr s => Some s
  | JArr items =>
      (* Array.prototype.join(","): null and undefined elements are empty *)
      (fix join (l : list JsVal) : option string :=
         match l with
         | [] => Some EmptyString
         | x :: rest =>
             let shown :=
               match x with
               | JUndefined | JNull => Some EmptyString
               | _ => toString x
               end in
             match rest with
             | [] => shown
             | _ :: _ =>
                 match shown, join rest with
                 | Some a, Some b => Some (a ++ "," ++ b)
                 | _, _ => None
                 end
             end
         end) items
  | JObj fields =>
      if has_key "toString" fields then None else Some "[object Object]"
  end.

(** ** The GitHub URL pattern *)

Definition not_slash (c : ascii) : bool := negb (Ascii.eqb c "/").

(** [/https:\/\/github\.com\/([^/]+)\/([^/]+)/] tried at the start of [s].
    Both groups are greedy runs of characters other than [/]; a shorter
    first group would be followed by a character that is not [/], so the
    longest run is the only candidate, and the second group takes the longest
    run too. *)
Definition match_here (s : string) : option (string * string) :=
  match Js.afterPrefix "https://github.com/" s with
  | Some rest =>
      let (owner, rest1) := Js.span not_slash rest in
      match owner, rest1 with
      | String _ _, String c rest2 =>
          if Ascii.eqb c "/" then
            let (repo, _) := Js.span not_slash rest2 in
            match repo with
            | String _ _ => Some (owner, repo)
            | EmptyString => None
            end
          else None
      | _, _ => None
      end
  | None => None
  end.

(** [url.match(/https:\/\/github\.com\/([^/]+)\/([^/]+)/)]: the pattern has
    no anchor, so it is tried at every position from the left; the result is
    the pair of groups of the first match. *)
Fixpoint github_match (s : string) : option (string * string) :=
  match match_here s with
  | Some m => Some m
  | None =>
      match s with
      | String _ s' => github_match s'
      | EmptyString => None
      end
  end.

(** [repo.replace(/\.git$/, empty)]: a final [.git] is removed. *)
Fixpoint strip_dot_git (s : string) : string :=
  match s with
  | String c s' => if s =? ".git" then EmptyString else String c (strip_dot_git s')
  | EmptyString => EmptyString
  end.

(** ** The host: the JSON parser and the Octokit client *)

(** A thrown value, by the text [`${error}`] gives. *)
Inductive Exn : Type := Error (text : string).

Definition error_text (e : Exn) : string := let (t) := e in t.

Inductive Request : Type :=
| UsersGetByUsername (username : string)
| ReposGet (owner repo : string)
| ReposGetContent (owner repo path : string).

(** [response.data]: a file (an object with a [content] key; [text] is
    [Buffer.from(content, "base64").toString("utf8")]), a directory listing
    (an array of objects, by their [name]), or an object without [content]. *)
Inductive Data : Type :=
| FileData (text : string)
| ListingData (names : list string)
| OtherData.

Inductive Response : Type :=
| Rejected (e : Exn)
| Fulfilled (status : Z) (data : Data).

Record Host : Type := {
  JSON_parse : string -> option JsVal;
  (* the reply to a request, given the requests made before it *)
  octokit : list Request -> Request -> Response
}.

(** ** Programs *)

Inductive Prog (A : Type) : Type :=
| Ret (a : A)
| Throw (e : Exn)
| Push (msg : string) (k : Prog A)
| ReadErrors (k : list string -> Prog A)
| JsonParse (text : string) (k : option JsVal -> Prog A)
| Await (q : Request) (k : Response -> Prog A).

Arguments Throw {A} e.

Fixpoint bind {A B : Type} (p : Prog A) (f : A -> Prog B) : Prog B :=
  match p with
  | Ret a => f a
  | Throw e => Throw e
  | Push msg k => Push msg (bind k f)
  | ReadErrors k => ReadErrors (fun errs => bind (k errs) f)
  | JsonParse text k => JsonParse text (fun r => bind (k r) f)
  | Await q k => Await q (fun r => bind (k r) f)
  end.

#[export] Instance Monad_Prog : Monad Prog :=
  Build_Monad Prog (@Ret) (@bind).

(** [try { p } catch (error) { handler error }] *)
Fixpoint try_catch {A : Type} (p : Prog A) (handler : Exn -> Prog A) : Prog A :=
  match p with
  | Ret a => Ret a
  | Throw e => handler e
  | Push msg k => Push msg (try_catch k handler)
  | ReadErrors k => ReadErrors (fun errs => try_catch (k errs) handler)
  | JsonParse text k => JsonParse text (fun r => try_catch (k r) handler)
  | Await q k => Await q (fun r => try_catch (k r) handler)
  end.

(** The instance: [this.errors], and, as ghost state, the requests the
    Octokit client has sent so far. *)
Record RegistryValidator : Type := {
  this_errors : list string;
  requests : list Request
}.

(** [new RegistryValidator(githubToken)] *)
Definition new_RegistryValidator : RegistryValidator :=
  {| this_errors := []; requests := [] |}.

Inductive Outcome (A : Type) : Type :=
| Returns (a : A)
| Throws (e : Exn).

Arguments Throws {A} e.

Fixpoint run {A : Type} (h : Host) (p : Prog A) (st : RegistryValidator)
  : Outcome A * RegistryValidator :=
  match p with
  | Ret a => (Returns a, st)
  | Throw e => (Throws e, st)
  | Push msg k =>
      run h k {| this_errors := this_errors st ++ [msg];
                 requests := requests st |}
  | ReadErrors k => run h (k (this_errors st)) st
  | JsonParse text k => run h (k (JSON_parse h text)) st
  | Await q k =>
      run h (k (octokit h (requests st) q))
          {| this_errors := this_errors st;
             requests := requests st ++ [q] |}
  end.

(** The replies the client received, in order. *)
Fixpoint replies {A : Type} (h : Host) (p : Prog A) (st : RegistryValidator)
  : list Response :=
  match p with
  | Ret _ | Throw _ => []
  | Push msg k =>
      replies h k {| this_errors := this_errors st ++ [msg];
                     requests := requests st |}
  | ReadErrors k => replies h (k (this_errors st)) st
  | JsonParse text k => replies h (k (JSON_parse h text)) st
  | Await q k =>
      let r := octokit h (requests st) q in
      r :: replies h (k r)
             {| this_errors := this_errors st;
                requests := requests st ++ [q] |}
  end.

(** ** Statements of the methods *)

(** [this.errors.push(msg)] *)
Definition push (msg : string) : Prog unit := Push msg (Ret tt).

(** [await this.octokit...(q)]: a rejected promise throws its reason. *)
Definition await (q : Request) : Prog (Z * Data) :=
  Await q (fun r =>
    match r with
    | Rejected e => Throw e
    | Fulfilled status data => Ret (status, data)
    end).

(** [v.k] and [v[k]]: reading a property of [null] or [undefined] throws. *)
Definition member (v : JsVal) (k : string) : Prog JsVal :=
  match v with
  | JUndefined =>
      Throw (Error ("TypeError: Cannot read properties of undefined (reading '"
                    ++ k ++ "')"))
  | JNull =>
      Throw (Error ("TypeError: Cannot read properties of null (reading '"
                    ++ k ++ "')"))
  | _ => Ret (prop v k)
  end.

(** [`${v}`] *)
Definition template (v : JsVal) : Prog string :=
  match toString v with
  | Some s => Ret s
  | None => Throw (Error "TypeError: Cannot convert object to primitive value")
  end.

(** The string a value is, once [typeof] has said it is one. *)
Definition str (v : JsVal) : string :=
  match v with JStr s => s | _ => EmptyString end.

(** [typeof v !== "string" || v.trim()] is the empty string. *)
Definition not_string_or_blank (v : JsVal) : bool :=
  negb (typeof_string v) || (Js.trim (str v) =? EmptyString).

(** How a statement of a loop body ends: it falls through to the next
    statement, it is a [continue], or it is a [return] of the method. *)
Inductive Completion : Type := Normal | Continue | Return.

(** [p; q] *)
Definition and_then (p q : Prog Completion) : Prog Completion :=
  c <- p ;;
  match c with
  | Normal => q
  | _ => ret c
  end.

(** [for (const x of xs) { body x }] *)
Fixpoint for_of {A : Type} (xs : list A) (body : A -> Prog Completion)
  : Prog Completion :=
  match xs with
  | [] => ret Normal
  | x :: rest =>
      c <- body x ;;
      match c with
      | Return => ret Return
      | _ => for_of rest body
      end
  end.

(** A method of type [Promise<void>] whose body is one loop. *)
Definition loop_method {A : Type} (xs : list A) (body : A -> Prog Completion)
  : Prog unit :=
  _ <- for_of xs body ;; ret tt.

(** [response.status === 200 && "content" in response.data], and then the
    decoded content. *)
Definition content_of (response : Z * Data) : option string :=
  let (status, data) := response in
  if (status =? 200)%Z then
    match data with
    | FileData text => Some text
    | _ => None
    end
  else None.

(** *** validateGitHubHandles (lines 81-100 and 405-424) *)

Definition validateGitHubHandles_body (handle : JsVal) : Prog Completion :=
  if not_string_or_blank handle then
    shown <- template handle ;;
    push ("Invalid GitHub handle: '" ++ shown ++ "'") ;;
    ret Continue
  else
    try_catch
      (response <- await (UsersGetByUsername (Js.trim (str handle))) ;;
       if negb (fst response =? 200)%Z then
         push ("GitHub handle '" ++ str handle ++ "' is not accessible (status: "
               ++ Js.show_Z (fst response) ++ ")") ;;
         ret Normal
       else ret Normal)
      (fun _ =>
         push ("GitHub handle '" ++ str handle ++ "' is not valid or not found") ;;
         ret Normal).

Definition validateGitHubHandles (handles : list JsVal) : Prog unit :=
  loop_method handles validateGitHubHandles_body.

(** *** validateRepositoryUrls (lines 102-132 and 426-456) *)

Definition validateRepositoryUrls_body (url : JsVal) : Prog Completion :=
  if not_string_or_blank url then
    shown <- template url ;;
    push ("Invalid repository URL: '" ++ shown ++ "'") ;;
    ret Continue
  else
    try_catch
      (match github_match (str url) with
       | None =>
           push ("Invalid GitHub URL format: '" ++ str url ++ "'") ;;
           ret Continue
       | Some (owner, repo) =>
           let repoName := strip_dot_git repo in
           response <- await (ReposGet (Js.trim owner) (Js.trim repoName)) ;;
           if negb (fst response =? 200)%Z then
             push ("Repository '" ++ str url ++ "' is not accessible (status: "
                   ++ Js.show_Z (fst response) ++ ")") ;;
             ret Normal
           else ret Normal
       end)
      (fun _ =>
         push ("Repository '" ++ str url ++ "' is not valid or not found") ;;
         ret Normal).

Definition validateRepositoryUrls (urls : list JsVal) : Prog unit :=
  loop_method urls validateRepositoryUrls_body.

(** *** validateFlowEcosystemRequirements (lines 134-259) *)

(** [url.match(...)] on a value that may not be a string. *)
Definition url_match (url : JsVal) : Prog (option (string * string)) :=
  match url with
  | JStr s => ret (github_match s)
  | JUndefined =>
      Throw (Error "TypeError: Cannot read properties of undefined (reading 'match')")
  | JNull =>
      Throw (Error "TypeError: Cannot read properties of null (reading 'match')")
  | _ => Throw (Error "TypeError: url.match is not a function")
  end.

(** [try { p } catch (error) { }] *)
Definition swallow (p : Prog Completion) : Prog Completion :=
  try_catch p (fun _ => ret Normal).

(** Lines 143-159 *)
Definition probe_readme (owner repoName : string) : Prog Completion :=
  swallow
    (readmeResponse <- await (ReposGetContent (Js.trim owner) (Js.trim repoName)
                                               "README.md") ;;
     match content_of readmeResponse with
     | Some content =>
         if Js.includes (Js.toLowerCase content) "on flow"
            || Js.includes (Js.toLowerCase content) "flow blockchain"
         then ret Return
         else ret Normal
     | None => ret Normal
     end).

(** Lines 161-185 *)
Definition probe_package_json (owner repoName : string) : Prog Completion :=
  swallow
    (packageResponse <- await (ReposGetContent (Js.trim owner) (Js.trim repoName)
                                                "package.json") ;;
     match content_of packageResponse with
     | Some content =>
         JsonParse content (fun parsed =>
           match parsed with
           | None => Throw (Error "SyntaxError: JSON Parse error")
           | Some packageJson =>
               dependencies <- member packageJson "dependencies" ;;
               let devDependencies := prop packageJson "devDependencies" in
               if truthy dependencies
                  && (truthy (prop dependencies "@onflow/fcl")
                      || truthy (prop dependencies "@onflow/kit")
                      || truthy (optional_prop devDependencies "@onflow/fcl")
                      || truthy (optional_prop devDependencies "@onflow/kit"))
               then ret Continue
               else ret Normal
           end)
     | None => ret Normal
     end).

(** Lines 187-203 *)
Definition probe_go_mod (owner repoName : string) : Prog Completion :=
  swallow
    (goModResponse <- await (ReposGetContent (Js.trim owner) (Js.trim repoName)
                                              "go.mod") ;;
     match content_of goModResponse with
     | Some content =>
         if Js.includes content "github.com/onflow/flow-go-sdk"
            || Js.includes content "github.com/onflow/flow-go"
         then ret Continue
         else ret Normal
     | None => ret Normal
     end).

(** Lines 214-220 *)
Definition is_solidity_config (name : string) : bool :=
  (name =? "hardhat.config.js") || (name =? "hardhat.config.ts")
  || (name =? "truffle-config.js") || (name =? "foundry.toml").

(** Lines 225-242: the body of the loop over the listing. *)
Definition config_file_body (owner repoName : string) (name : string)
  : Prog Completion :=
  if (name =? "hardhat.config.js") || (name =? "hardhat.config.ts") then
    swallow
      (configResponse <- await (ReposGetContent (Js.trim owner) (Js.trim repoName)
                                                 name) ;;
       match content_of configResponse with
       | Some content =>
           if Js.includes content "evm.nodes.onflow.org" then ret Return
           else ret Normal
       | None => ret Normal
       end)
  else ret Normal.

(** Lines 205-248 *)
Definition probe_solidity_config (owner repoName : string) : Prog Completion :=
  swallow
    (filesResponse <- await (ReposGetContent (Js.trim owner) (Js.trim repoName)
                                              EmptyString) ;;
     match filesResponse with
     | (status, ListingData names) =>
         if (status =? 200)%Z then
           let hasSolidityConfig := existsb is_solidity_config names in
           if hasSolidityConfig then
             for_of names (config_file_body owner repoName)
           else ret Normal
         else ret Normal
     | _ => ret Normal
     end).

(** The double quote, as a one-character string. *)
Definition dquote : string := String (ascii_of_nat 34) EmptyString.

(** The message of lines 251-253. *)
Definition requirements_message (shown : string) : string :=
  "Repository '" ++ shown
  ++ "' does not meet Flow ecosystem requirements. It must either: 1) Clearly state "
  ++ dquote ++ "Built on Flow" ++ dquote
  ++ " in README.md, or 2) Include Flow components (@onflow/fcl, @onflow/kit, Flow Go SDK, or Flow EVM endpoints)".

Definition validateFlowEcosystemRequirements_body (url : JsVal)
  : Prog Completion :=
  swallow
    (m <- url_match url ;;
     match m with
     | None => ret Continue
     | Some (owner, repo) =>
         let repoName := strip_dot_git repo in
         and_then (probe_readme owner repoName)
        (and_then (probe_package_json owner repoName)
        (and_then (probe_go_mod owner repoName)
        (and_then (probe_solidity_config owner repoName)
                  (shown <- template url ;;
                   push (requirements_message shown) ;;
                   ret Normal))))
     end).

Definition validateFlowEcosystemRequirements (urls : list JsVal) : Prog unit :=
  loop_method urls validateFlowEcosystemRequirements_body.

(** *** validateXHandles (lines 281-287) *)

Definition validateXHandles_body (handle : JsVal) : Prog Completion :=
  if not_string_or_blank handle then
    shown <- template handle ;;
    push ("Invalid X handle: '" ++ shown ++ "'") ;;
    ret Normal
  else ret Normal.

Definition validateXHandles (handles : list JsVal) : Prog unit :=
  loop_method handles validateXHandles_body.

(** *** The wallet address tests (lines 264, 273, 463 and 474) *)

Definition bad_evm_address (evmAddress : string) : bool :=
  negb (Js.startsWith evmAddress "0x")
  || negb (String.length evmAddress =? 42)%nat
  || negb (Js.test_0x_hex 40 evmAddress).

Definition bad_flow_address (flowAddress : string) : bool :=
  negb (Js.startsWith flowAddress "0x")
  || negb (String.length flowAddress =? 18)%nat
  || negb (Js.test_0x_hex 16 flowAddress).

Definition evm_message (evmAddress : string) : string :=
  "Invalid EVM wallet address: '" ++ evmAddress
  ++ "' - must start with 0x and be 42 characters long (0x + 40 hex chars)".

Definition flow_message (flowAddress : string) : string :=
  "Invalid Flow wallet address: '" ++ flowAddress
  ++ "' - must start with 0x and be 18 characters long (0x + 16 hex chars)".

(** Modelled from the spec: the type [ValidationResult], which the source
    imports from [../src/types], a file that is not among the sources.  The
    spec gives it as [{ isValid: boolean, errors: string[] }], and the three
    returns of [validateRegistry] build these two fields and no other.  The
    [errors] field of a result is the array [this.errors] itself; the record
    holds what it contains when the method returns. *)
Record ValidationResult : Type := {
  isValid : bool;
  errors : list string
}.

(** [data.filter((entry) => entry && typeof entry === "object")] *)
Definition is_entry (entry : JsVal) : bool := truthy entry && typeof_object entry.

Definition filter_entries (data : JsVal) : Prog (list JsVal) :=
  match data with
  | JArr items => ret (filter is_entry items)
  | JUndefined =>
      Throw (Error "TypeError: Cannot read properties of undefined (reading 'filter')")
  | JNull =>
      Throw (Error "TypeError: Cannot read properties of null (reading 'filter')")
  | _ => Throw (Error "TypeError: data.filter is not a function")
  end.

(** What [yaml.load(readFileSync(filePath, "utf8"))] came to: the value,
    or the exception one of the two calls threw.  The methods
    [validateRegistry] below take it in the place of [filePath]. *)
Definition Loaded : Type := (Exn + JsVal)%type.

Definition load (loaded : Loaded) : Prog JsVal :=
  match loaded with
  | inl e => Throw e
  | inr data => Ret data
  end.

(** [return { isValid: ..., errors: this.errors }] *)
Definition result_false : Prog ValidationResult :=
  ReadErrors (fun errs => Ret {| isValid := false; errors := errs |}).

Definition result_by_count : Prog ValidationResult :=
  ReadErrors (fun errs =>
    Ret {| isValid := (List.length errs =? 0)%nat; errors := errs |}).

(** [if (c) { p }] *)
Definition when (c : bool) (p : Prog unit) : Prog unit :=
  if c then p else ret tt.

(** ** The first revision (lines 6-288) *)

Module Eco.

Definition validateRequiredFields (entry : JsVal) : Prog unit :=
  name <- member entry "name" ;;
  when (negb (truthy name) || negb (typeof_string name))
       (push "Missing or invalid 'name' field") ;;
  github <- member entry "github" ;;
  when (negb (truthy github) || negb (isArray github)
        || (List.length (elements github) =? 0)%nat)
       (push "Missing or invalid 'github' field - must be a non-empty array") ;;
  repos <- member entry "repos" ;;
  when (negb (truthy repos) || negb (isArray repos)
        || (List.length (elements repos) =? 0)%nat)
       (push "Missing or invalid 'repos' field - must be a non-empty array").

Definition validateWalletAddresses (wallets : JsVal) : Prog unit :=
  evm <- member wallets "evm" ;;
  when (truthy evm && typeof_string evm)
       (let evmAddress := Js.trim (str evm) in
        when (bad_evm_address evmAddress) (push (evm_message evmAddress))) ;;
  flow <- member wallets "flow" ;;
  when (truthy flow && typeof_string flow)
       (let flowAddress := Js.trim (str flow) in
        when (bad_flow_address flowAddress) (push (flow_message flowAddress))).

Definition validateRegistry (loaded : Loaded) : Prog ValidationResult :=
  try_catch
    (data <- load loaded ;;
     entries <- filter_entries data ;;
     if (List.length entries =? 0)%nat then
       push "No valid registry entries found" ;;
       result_false
     else
       let entry := nth (List.length entries - 1) entries JUndefined in
       validateRequiredFields entry ;;
       github <- member entry "github" ;;
       when (truthy github && isArray github)
            (validateGitHubHandles (elements github)) ;;
       repos <- member entry "repos" ;;
       when (truthy repos && isArray repos)
            (validateRepositoryUrls (elements repos) ;;
             validateFlowEcosystemRequirements (elements repos)) ;;
       wallets <- member entry "wallets" ;;
       when (truthy wallets) (validateWalletAddresses wallets) ;;
       x <- member entry "x" ;;
       when (truthy x && isArray x) (validateXHandles (elements x)) ;;
       result_by_count)
    (fun error =>
       push ("Failed to parse registry file: " ++ error_text error) ;;
       result_false).

End Eco.

(** ** The second revision (lines 334-481) *)

Module Strict.

Definition validateRequiredFields (entry : JsVal) : Prog unit :=
  name <- member entry "name" ;;
  when (negb (truthy name) || negb (typeof_string name))
       (push "Missing or invalid 'name' field") ;;
  github <- member entry "github" ;;
  when (negb (truthy github) || negb (isArray github)
        || (List.length (elements github) =? 0)%nat)
       (push "Missing or invalid 'github' field - must be a non-empty array") ;;
  repos <- member entry "repos" ;;
  when (negb (truthy repos) || negb (isArray repos)
        || (List.length (elements repos) =? 0)%nat)
       (push "Missing or invalid 'repos' field - must be a non-empty array") ;;
  wallets <- member entry "wallets" ;;
  when (negb (truthy wallets) || negb (typeof_object wallets))
       (push "Missing or invalid 'wallets' field").

Definition validateWalletAddresses (wallets : JsVal) : Prog unit :=
  evm <- member wallets "evm" ;;
  (if negb (truthy evm) || negb (typeof_string evm) then
     push "Missing or invalid 'evm' wallet address"
   else
     let evmAddress := Js.trim (str evm) in
     when (bad_evm_address evmAddress) (push (evm_message evmAddress))) ;;
  flow <- member wallets "flow" ;;
  (if negb (truthy flow) || negb (typeof_string flow) then
     push "Missing or invalid 'flow' wallet address"
   else
     let flowAddress := Js.trim (str flow) in
     when (bad_flow_address flowAddress) (push (flow_message flowAddress))).

Definition validateRegistry (loaded : Loaded) : Prog ValidationResult :=
  try_catch
    (data <- load loaded ;;
     entries <- filter_entries data ;;
     if (List.length entries =? 0)%nat then
       push "No valid registry entries found" ;;
       result_false
     else
       let entry := nth (List.length entries - 1) entries JUndefined in
       validateRequiredFields entry ;;
       github <- member entry "github" ;;
       when (truthy github && isArray github)
            (validateGitHubHandles (elements github)) ;;
       repos <- member entry "repos" ;;
       when (truthy repos && isArray repos)
            (validateRepositoryUrls (elements repos)) ;;
       wallets <- member entry "wallets" ;;
       when (truthy wallets) (validateWalletAddresses wallets) ;;
       result_by_count)
    (fun error =>
       push ("Failed to parse registry file: " ++ error_text error) ;;
       result_false).

End Strict.

(** What [main] (lines 297-298) gets: a new instance, one call. *)
Definition validate_eco (h : Host) (loaded : Loaded) : Outcome ValidationResult :=
  fst (run h (Eco.validateRegistry loaded) new_RegistryValidator).

Definition validate_strict (h : Host) (loaded : Loaded)
  : Outcome ValidationResult :=
  fst (run h (Strict.validateRegistry loaded) new_RegistryValidator).

(** * Vocabulary of the statements *)

(** What every path of [validateRegistry] ends in: a result is returned, its
    [errors] are [this.errors], and its flag tells whether they are empty. *)
Definition sound_result (out : Outcome ValidationResult * RegistryValidator) : Prop :=
  exists r st',
    out = (Returns r, st') /\
    errors r = this_errors st' /\
    (isValid r = true <-> errors r = []).

(** What C10 says of a method [validateRegistry]: two calls in a row on one
    instance both return; the errors of the instance after a call are those
    before it followed by the ones the call appended; the result of a call
    holds all of them; so the result of the second call starts with the
    errors of the first. *)
Definition accumulates (validateRegistry : Loaded -> Prog ValidationResult)
  : Prop :=
  forall (h1 h2 : Host) (loaded1 loaded2 : Loaded) (st : RegistryValidator),
  exists r1 st1 r2 st2 added1 added2,
    run h1 (validateRegistry loaded1) st = (Returns r1, st1) /\
    run h2 (validateRegistry loaded2) st1 = (Returns r2, st2) /\
    this_errors st1 = (this_errors st ++ added1)%list /\
    errors r1 = this_errors st1 /\
    this_errors st2 = (this_errors st1 ++ added2)%list /\
    errors r2 = (errors r1 ++ added2)%list.

(** A record of the sequence is object-typed when it is a mapping or a
    sequence: [typeof] says ["object"] of both, and of [null], which the
    filter drops for being falsy. *)
Definition object_typed (v : JsVal) : bool :=
  match v with
  | JArr _ | JObj _ => true
  | _ => false
  end.

(** The last object-typed record of a sequence, by one pass from the left. *)
Definition last_object_typed (items : list JsVal) : option JsVal :=
  fold_left (fun found v => if object_typed v then Some v else found)
            items None.

(** No character of the string is a slash. *)
Definition slash_free (s : string) : Prop := Js.all_chars not_slash s = true.

(** The whole string is [https://github.com/<owner>/<repo>], with an owner
    and a repository name that are not empty and hold no slash (a final
    [.git] is part of the name). *)
Definition github_url_shape (s : string) : Prop :=
  exists owner repo,
    s = "https://github.com/" ++ owner ++ "/" ++ repo /\
    owner <> EmptyString /\ repo <> EmptyString /\
    slash_free owner /\ slash_free repo.

(** The string holds such a part somewhere. *)
Definition contains_github_url (s : string) : Prop :=
  exists before owner repo after,
    s = before ++ "https://github.com/" ++ owner ++ "/" ++ repo ++ after /\
    owner <> EmptyString /\ repo <> EmptyString /\
    slash_free owner /\ slash_free repo.

(** The iteration of [validateRepositoryUrls] for the string [url] sends
    the existence lookup. *)
Definition sends_lookup (h : Host) (st : RegistryValidator) (url : string)
  : Prop :=
  exists owner repo,
    requests (snd (run h (validateRepositoryUrls_body (JStr url)) st)) =
    (requests st ++ [ReposGet owner repo])%list.

(** The string is [0x] followed by [n] hexadecimal digits and nothing else. *)
Definition exact_0x_hex (n : nat) (s : string) : Prop :=
  exists digits,
    s = "0x" ++ digits /\
    String.length digits = n /\
    Js.all_chars Js.is_hex digits = true.

(** An error of the EVM address test, by the way its message starts. *)
Definition is_evm_error (msg : string) : bool :=
  Js.startsWith msg "Invalid EVM wallet address: '".

(** The errors the existence lookup of lines 120-130 can append for [url],
    by the reply. *)
Definition lookup_errors (url : string) (reply : Response) : list string :=
  match reply with
  | Rejected _ => ["Repository '" ++ url ++ "' is not valid or not found"]
  | Fulfilled status _ =>
      if (status =? 200)%Z then []
      else ["Repository '" ++ url ++ "' is not accessible (status: "
            ++ Js.show_Z status ++ ")"]
  end.

(** The instance with one more error. *)
Definition with_error (st : RegistryValidator) (msg : string)
  : RegistryValidator :=
  {| this_errors := this_errors st ++ [msg]; requests := requests st |}.

(** What [result.errors] holds when it is read at a later state [st] of the
    instance: the field is the array of the instance, not a copy of it. *)
Definition errors_read_at (st : RegistryValidator) (r : ValidationResult)
  : list string :=
  this_errors st.

(** ** Sample hosts and inputs *)

(** Every user and repository exists; no repository has any file. *)
Definition bare_host : Host :=
  {| JSON_parse := fun _ => None;
     octokit := fun _ q =>
       match q with
       | ReposGetContent _ _ _ => Rejected (Error "HttpError: Not Found")
       | _ => Fulfilled 200 OtherData
       end |}.

(** A URL with a path after the repository. *)
Definition tree_url : string := "https://github.com/acme/widget/tree/main".

(** A string that is no GitHub URL. *)
Definition not_a_url : string := "not-a-url".

(** A well-formed EVM address after a space. *)
Definition padded_evm : string := " 0x0000000000000000000000000000000000000000".

(** The entry of the registration template, with a short EVM address. *)
Definition short_evm_wallets : list (string * JsVal) :=
  [("evm", JStr "0x123"); ("flow", JStr "0x0000000000000001")].

Definition short_evm_entry : JsVal :=
  JObj [("name", JStr "Team");
        ("github", JArr [JStr "alice"]);
        ("repos", JArr [JStr not_a_url]);
        ("wallets", JObj short_evm_wallets)].

Definition padded_evm_wallets : list (string * JsVal) :=
  [("evm", JStr padded_evm); ("flow", JStr "0x0000000000000001")].

(** Like [bare_host], but the user [nobody] does not exist. *)
Definition other_host : Host :=
  {| JSON_parse := fun _ => None;
     octokit := fun _ q =>
       match q with
       | ReposGetContent _ _ _ => Rejected (Error "HttpError: Not Found")
       | UsersGetByUsername username =>
           if username =? "nobody" then Rejected (Error "HttpError: Not Found")
           else Fulfilled 200 OtherData
       | _ => Fulfilled 200 OtherData
       end |}.

Definition widget_url : string := "https://github.com/acme/widget".
Definition other_url : string := "https://github.com/acme/other".
Definition contracts_url : string := "https://github.com/acme/contracts".

(** The README of [acme/widget] says "Built on Flow"; no other file of any
    repository is found. *)
Definition acme_host : Host :=
  {| JSON_parse := fun _ => None;
     octokit := fun _ q =>
       match q with
       | ReposGetContent owner repo path =>
           if (owner =? "acme") && (repo =? "widget") && (path =? "README.md")
           then Fulfilled 200 (FileData "# Widget - Built on Flow")
           else Rejected (Error "HttpError: Not Found")
       | _ => Fulfilled 200 OtherData
       end |}.

Definition flow_endpoint_config : string :=
  "flow = 'https://mainnet.evm.nodes.onflow.org'".

(** A repository whose root holds the one file [config], a configuration
    that names the Flow EVM endpoint, and nothing else. *)
Definition config_host (config : string) : Host :=
  {| JSON_parse := fun _ => None;
     octokit := fun _ q =>
       match q with
       | ReposGetContent owner repo path =>
           if path =? EmptyString then Fulfilled 200 (ListingData [config])
           else if path =? config
                then Fulfilled 200 (FileData flow_endpoint_config)
                else Rejected (Error "HttpError: Not Found")
       | _ => Fulfilled 200 OtherData
       end |}.

Definition sample_items1 : list JsVal :=
  [JObj [("name", JStr "Earlier team")]; short_evm_entry].

Definition sample_items2 : list JsVal :=
  [JNum 7; short_evm_entry; JStr "tail"; JNull].

Definition no_object_items : list JsVal :=
  [JNum 1; JStr "x"; JNull; JBool true; JUndefined].

(** An entry that passes every check on [acme_host]. *)
Definition widget_entry : JsVal :=
  JObj [("name", JStr "Widget team");
        ("github", JArr [JStr "alice"]);
        ("repos", JArr [JStr widget_url]);
        ("wallets",
         JObj [("evm", JStr "0x0000000000000000000000000000000000000000");
               ("flow", JStr "0x0000000000000001")])].

(** * Vocabulary of the further statements *)

(** A string that [trim] leaves empty. *)
Definition blank (s : string) : bool := Js.trim s =? EmptyString.

(** The errors the user lookup of lines 88-98 can append for [handle], by
    the reply. *)
Definition handle_errors (handle : string) (reply : Response) : list string :=
  match reply with
  | Rejected _ => ["GitHub handle '" ++ handle ++ "' is not valid or not found"]
  | Fulfilled status _ =>
      if (status =? 200)%Z then []
      else ["GitHub handle '" ++ handle ++ "' is not accessible (status: "
            ++ Js.show_Z status ++ ")"]
  end.

(** Every user lookup is fulfilled with status 200, whatever was asked
    before. *)
Definition users_exist (h : Host) : Prop :=
  forall (before : list Request) (username : string),
  exists data,
    octokit h before (UsersGetByUsername username) = Fulfilled 200 data.

(** Every repository lookup is fulfilled with status 200. *)
Definition repos_exist (h : Host) : Prop :=
  forall (before : list Request) (owner repo : string),
  exists data, octokit h before (ReposGet owner repo) = Fulfilled 200 data.

(** A value that is a string and is not the empty string. *)
Definition nonempty_string (v : JsVal) : Prop :=
  exists s, v = JStr s /\ s <> EmptyString.

(** A value that is an array with at least one element. *)
Definition nonempty_array (v : JsVal) : Prop :=
  exists x rest, v = JArr (x :: rest).

(** The test of lines 66 and 388 on [entry.name], and the test of lines 70,
    74, 392 and 396 on [entry.github] and [entry.repos]. *)
Definition bad_name (v : JsVal) : bool :=
  negb (truthy v) || negb (typeof_string v).

Definition bad_array (v : JsVal) : bool :=
  negb (truthy v) || negb (isArray v)
  || (List.length (elements v) =? 0)%nat.

Definition name_message : string := "Missing or invalid 'name' field".

(** An entry with a name only. *)
Definition nameless_entry : JsVal :=
  JObj [("github", JArr [JStr "alice"]); ("repos", JArr [JStr widget_url])].

(** An error of the Flow address test, by the way its message starts. *)
Definition is_flow_error (msg : string) : bool :=
  Js.startsWith msg "Invalid Flow wallet address: '".

(** Wallets with a well-formed Flow address in capitals and no [evm]. *)
Definition flow_only_wallets : list (string * JsVal) :=
  [("flow", JStr "0xABCDEF0123456789")].

(** What makes each of the first three probes end the search, by the reply
    (lines 151-155, 169-181 and 195-199). *)
Definition readme_confirms (reply : Response) : bool :=
  match reply with
  | Fulfilled status (FileData text) =>
      (status =? 200)%Z
      && (Js.includes (Js.toLowerCase text) "on flow"
          || Js.includes (Js.toLowerCase text) "flow blockchain")
  | _ => false
  end.

Definition manifest_confirms (packageJson : JsVal) : bool :=
  let dependencies := prop packageJson "dependencies" in
  let devDependencies := prop packageJson "devDependencies" in
  truthy dependencies
  && (truthy (prop dependencies "@onflow/fcl")
      || truthy (prop dependencies "@onflow/kit")
      || truthy (optional_prop devDependencies "@onflow/fcl")
      || truthy (optional_prop devDependencies "@onflow/kit")).

Definition package_confirms (h : Host) (reply : Response) : bool :=
  match reply with
  | Fulfilled status (FileData text) =>
      (status =? 200)%Z
      && match JSON_parse h text with
         | Some packageJson => manifest_confirms packageJson
         | None => false
         end
  | _ => false
  end.

Definition go_mod_confirms (reply : Response) : bool :=
  match reply with
  | Fulfilled status (FileData text) =>
      (status =? 200)%Z
      && (Js.includes text "github.com/onflow/flow-go-sdk"
          || Js.includes text "github.com/onflow/flow-go")
  | _ => false
  end.

(** The request of a probe for the file [path] of the repository a URL
    names. *)
Definition content_request (owner name path : string) : Request :=
  ReposGetContent (Js.trim owner) (Js.trim (strip_dot_git name)) path.

(** The instance after one more request. *)
Definition with_request (st : RegistryValidator) (q : Request)
  : RegistryValidator :=
  {| this_errors := this_errors st; requests := requests st ++ [q] |}.

(** No content request succeeds: every one of them is rejected. *)
Definition contents_rejected (h : Host) : Prop :=
  forall (before : list Request) (owner repo path : string),
  exists e, octokit h before (ReposGetContent owner repo path) = Rejected e.

(** The four probes of a URL, in the order they are sent. *)
Definition four_probes (url : string) : list Request :=
  match github_match url with
  | Some (owner, repo) =>
      [content_request owner repo "README.md";
       content_request owner repo "package.json";
       content_request owner repo "go.mod";
       content_request owner repo EmptyString]
  | None => []
  end.

(** A manifest with [@onflow/fcl] among its [devDependencies] and no
    [dependencies]. *)
Definition dev_only_manifest : JsVal :=
  JObj [("name", JStr "widget");
        ("devDependencies", JObj [("@onflow/fcl", JStr "^1.0.0")])].

(** A manifest with [@onflow/kit] among its [dependencies]. *)
Definition kit_manifest : JsVal :=
  JObj [("dependencies", JObj [("@onflow/kit", JStr "^0.1.0")])].

(** A host that serves one [package.json], parsed as [manifest], for every
    repository, and rejects every other content request. *)
Definition manifest_host (manifest : JsVal) : Host :=
  {| JSON_parse := fun _ => Some manifest;
     octokit := fun _ q =>
       match q with
       | ReposGetContent _ _ path =>
           if path =? "package.json" then Fulfilled 200 (FileData "{...}")
           else Rejected (Error "HttpError: Not Found")
       | _ => Fulfilled 200 OtherData
       end |}.

(** A host that serves one [go.mod] for every repository, and rejects
    every other content request. *)
Definition go_mod_host : Host :=
  {| JSON_parse := fun _ => None;
     octokit := fun _ q =>
       match q with
       | ReposGetContent _ _ path =>
           if path =? "go.mod"
           then Fulfilled 200
                  (FileData "require github.com/onflow/flow-go v0.33.0")
           else Rejected (Error "HttpError: Not Found")
       | _ => Fulfilled 200 OtherData
       end |}.

(** The existence lookup the URL check sends for a string, if any. *)
Definition repo_lookup (url : string) : list Request :=
  match github_match url with
  | Some (owner, repo) =>
      [ReposGet (Js.trim owner) (Js.trim (strip_dot_git repo))]
  | None => []
  end.

(** Every README that is asked for is served and has the marker. *)
Definition readmes_confirm (h : Host) : Prop :=
  forall (before : list Request) (owner repo : string),
    readme_confirms (octokit h before (ReposGetContent owner repo "README.md"))
    = true.

(** An entry as the registration template asks for it: a name, handles
    that are not blank, strings that hold a GitHub URL, and two well-formed
    wallet addresses. *)
Definition well_formed_entry (fields : list (string * JsVal))
           (handles urls : list string) : Prop :=
  (exists name, lookup "name" fields = JStr name /\ name <> EmptyString) /\
  lookup "github" fields = JArr (map JStr handles) /\
  handles <> [] /\ Forall (fun s => blank s = false) handles /\
  lookup "repos" fields = JArr (map JStr urls) /\
  urls <> [] /\ Forall contains_github_url urls /\
  (exists wallets evm flow,
     lookup "wallets" fields = JObj wallets /\
     lookup "evm" wallets = JStr evm /\ exact_0x_hex 40 (Js.trim evm) /\
     lookup "flow" wallets = JStr flow /\ exact_0x_hex 16 (Js.trim flow)).

(** Every user and repository exists, and every README says
    "Built on Flow". *)
Definition flow_host : Host :=
  {| JSON_parse := fun _ => None;
     octokit := fun _ q =>
       match q with
       | ReposGetContent _ _ path =>
           if path =? "README.md"
           then Fulfilled 200 (FileData "Built on Flow")
           else Rejected (Error "HttpError: Not Found")
       | _ => Fulfilled 200 OtherData
       end |}.

Definition widget_fields : list (string * JsVal) :=
  [("name", JStr "Widget team");
   ("github", JArr [JStr "alice"]);
   ("repos", JArr [JStr widget_url]);
   ("wallets",
    JObj [("evm", JStr "0x0000000000000000000000000000000000000000");
          ("flow", JStr "0x0000000000000001")])].

(** ** [main] (lines 290-320 and 483-513) *)

(** What [main] finds around it: [process.env.GITHUB_TOKEN] ([None] when it
    is not set), and whether [mkdirSync] and [writeFileSync] throw. *)
Record Process : Type := {
  GITHUB_TOKEN : option string;
  mkdirSync_throws : option Exn;
  writeFileSync_throws : option Exn
}.

(** What [main] leaves behind: the argument of [process.exit], the result
    whose [JSON.stringify] went to [tmp/validation-result.json] (its text is
    not modelled), the lines of [console.log], the error handed to
    [console.error], and the requests that were sent. *)
Record Exit : Type := {
  exit_code : Z;
  written : option ValidationResult;
  stdout : list string;
  reported : option Exn;
  sent : list Request
}.

(** The [catch] of [main]: lines 316-319. *)
Definition main_failed (error : Exn) (sent : list Request) : Exit :=
  {| exit_code := 1; written := None; stdout := [];
     reported := Some error; sent := sent |}.

Definition main (validateRegistry : Loaded -> Prog ValidationResult)
           (env : Process) (h : Host) (loaded : Loaded) : Exit :=
  let githubToken :=
    match GITHUB_TOKEN env with Some t => JStr t | None => JUndefined end in
  if negb (truthy githubToken) then
    main_failed (Error "Error: GITHUB_TOKEN environment variable is required") []
  else
    match run h (validateRegistry loaded) new_RegistryValidator with
    | (Throws error, st) => main_failed error (requests st)
    | (Returns result, st) =>
        match mkdirSync_throws env with
        | Some error => main_failed error (requests st)
        | None =>
            match writeFileSync_throws env with
            | Some error => main_failed error (requests st)
            | None =>
                if isValid result then
                  {| exit_code := 0; written := Some result;
                     stdout := ["✅ Registry validation passed!"];
                     reported := None; sent := requests st |}
                else
                  {| exit_code := 1; written := Some result;
                     stdout :=
                       "❌ Registry validation failed:"
                       :: map (fun error => "  - " ++ error) (errors result);
                     reported := None; sent := requests st |}
            end
        end
    end.

(** A process with a token and a working file system. *)
Definition ci_process : Process :=
  {| GITHUB_TOKEN := Some "ghs_token";
     mkdirSync_throws := None;
     writeFileSync_throws := None |}.

(** No user lookup succeeds: every one of them is rejected. *)
Definition users_unreachable (h : Host) : Prop :=
  forall (before : list Request) (username : string),
  exists e, octokit h before (UsersGetByUsername username) = Rejected e.

(** A host whose every request is rejected. *)
Definition offline_host : Host :=
  {| JSON_parse := fun _ => None;
     octokit := fun _ _ => Rejected (Error "HttpError: getaddrinfo ENOTFOUND") |}.

(** ** The first part of the shape in a string *)

(** The string starts with [https://github.com/<owner>/<repo>], where the
    owner and the name are not empty and hold no slash, and the name runs
    up to the next slash or to the end of the string. *)
Definition github_part_at_start (s owner repo : string) : Prop :=
  exists after,
    s = "https://github.com/" ++ owner ++ "/" ++ repo ++ after /\
    owner <> EmptyString /\ repo <> EmptyString /\
    slash_free owner /\ slash_free repo /\
    (after = EmptyString \/ exists rest, after = "/" ++ rest).

(** The string starts with a part of the shape, of whatever length of
    name. *)
Definition starts_with_github_url (s : string) : Prop :=
  exists owner repo after,
    s = "https://github.com/" ++ owner ++ "/" ++ repo ++ after /\
    owner <> EmptyString /\ repo <> EmptyString /\
    slash_free owner /\ slash_free repo.

(** [owner] and [repo] are those of the first part of the shape in [url]:
    the part starts after [before], and no part starts at an earlier
    position. *)
Definition first_github_part (url owner repo : string) : Prop :=
  exists before rest,
    url = before ++ rest /\
    github_part_at_start rest owner repo /\
    forall b1 b2,
      before = b1 ++ b2 -> b2 <> EmptyString ->
      ~ starts_with_github_url (b2 ++ rest).

(** [name] is [repo] without a final [.git]: [repo] with the four
    characters removed when it ends in them, [repo] itself when it does
    not. *)
Definition without_dot_git (repo name : string) : Prop :=
  repo = name ++ ".git" \/
  (name = repo /\ forall stem, repo <> stem ++ ".git").

(** A URL whose name ends in [.git], inside a sentence that holds a second
    URL. *)
Definition two_urls : string :=
  "see https://github.com/ acme /widget.git/tree and https://github.com/b/c".

(** * Running programs *)

Section Running.

Variable h : Host.

Lemma run_bind (A B : Type) (p : Prog A) (f : A -> Prog B) (st : RegistryValidator) :
  run h (Monad.bind p f) st =
  match run h p st with
  | (Returns a, st') => run h (f a) st'
  | (Throws e, st') => (Throws e, st')
  end.
Proof.
  revert st. induction p as [a|e|msg k IH|k IH|text k IH|q k IH];
    intros st; simpl; auto.
Qed.

Lemma run_try_catch (A : Type) (p : Prog A) (handler : Exn -> Prog A)
      (st : RegistryValidator) :
  run h (try_catch p handler) st =
  match run h p st with
  | (Returns a, st') => (Returns a, st')
  | (Throws e, st') => run h (handler e) st'
  end.
Proof.
  revert st. induction p as [a|e|msg k IH|k IH|text k IH|q k IH];
    intros st; simpl; auto.
Qed.

(** A program only appends: to [this.errors], and to the requests sent. *)
Lemma run_appends (A : Type) (p : Prog A) (st : RegistryValidator) :
  exists errs reqs,
    this_errors (snd (run h p st)) = (this_errors st ++ errs)%list /\
    requests (snd (run h p st)) = (requests st ++ reqs)%list.
Proof.
  revert st. induction p as [a|e|msg k IH|k IH|text k IH|q k IH];
    intros st; simpl.
  - exists [], []. now rewrite !app_nil_r.
  - exists [], []. now rewrite !app_nil_r.
  - destruct (IH {| this_errors := this_errors st ++ [msg];
                    requests := requests st |}) as (errs & reqs & He & Hr).
    exists (msg :: errs), reqs. rewrite He, Hr. simpl.
    now rewrite <- app_assoc.
  - apply IH.
  - apply IH.
  - destruct (IH (octokit h (requests st) q)
                 {| this_errors := this_errors st;
                    requests := requests st ++ [q] |})
      as (errs & reqs & He & Hr).
    exists errs, (q :: reqs). rewrite He, Hr. simpl.
    now rewrite <- app_assoc.
Qed.

Lemma run_result_false (st : RegistryValidator) :
  run h result_false st =
  (Returns {| isValid := false; errors := this_errors st |}, st).
Proof. reflexivity. Qed.

Lemma run_result_by_count (st : RegistryValidator) :
  run h result_by_count st =
  (Returns {| isValid := (List.length (this_errors st) =? 0)%nat;
              errors := this_errors st |}, st).
Proof. reflexivity. Qed.

End Running.

(** The result of a run is a function of the replies received: two hosts
    with the same JSON parser whose clients gave the same replies in the same
    order lead a program to the same outcome and the same instance. *)
Lemma run_same_replies (A : Type) (p : Prog A) (h1 h2 : Host) (st : RegistryValidator) :
  (forall text, JSON_parse h1 text = JSON_parse h2 text) ->
  replies h1 p st = replies h2 p st ->
  run h1 p st = run h2 p st.
Proof.
  intros HJ. revert st.
  induction p as [a|e|msg k IH|k IH|text k IH|q k IH]; intros st; simpl; auto.
  - rewrite HJ. apply IH.
  - intros Heq. injection Heq as Hr Hrest.
    rewrite <- Hr in *. now apply IH.
Qed.

(** * The result of [validateRegistry] *)

Lemma sound_result_by_count (h : Host) (st : RegistryValidator) :
  sound_result (run h result_by_count st).
Proof.
  rewrite run_result_by_count. eexists _, _. split; [reflexivity|].
  simpl. split; [reflexivity|].
  destruct (this_errors st); simpl; split; congruence.
Qed.

Lemma sound_push_result_false (h : Host) (msg : string) (st : RegistryValidator) :
  sound_result (run h (Monad.bind (push msg) (fun _ => result_false)) st).
Proof.
  simpl. eexists _, _. split; [reflexivity|]. simpl. split; [reflexivity|].
  split; [discriminate|]. intros H. now apply app_eq_nil in H.
Qed.

(** The [try] block either ends in a sound result or throws; the handler
    turns what it throws into a sound result. *)
Ltac try_block_sound h :=
  rewrite run_try_catch;
  match goal with
  | |- sound_result (match ?body with _ => _ end) =>
      let H := fresh "H" in
      assert (H : sound_result body \/ exists e st', body = (Throws e, st'));
      [ | destruct H as [(? & ? & -> & H)|(? & ? & ->)];
          [ eexists _, _; split; [reflexivity | exact H]
          | apply sound_push_result_false ] ]
  end;
  rewrite run_bind;
  match goal with
  | |- context [load ?loaded] =>
      let data := fresh "data" in
      destruct loaded as [?|data]; simpl load; cbn [run]; [right; eauto|];
      rewrite run_bind;
      destruct data; simpl filter_entries; cbn [run]; try (right; eauto; fail)
  end;
  match goal with
  | |- context [(?n =? 0)%nat] => destruct (n =? 0)%nat
  end;
  [ left; apply sound_push_result_false | ];
  repeat (rewrite run_bind;
          match goal with
          | |- context [run h ?p ?s] =>
              destruct (run h p s) as [[?|?] ?]; [ | right; eauto ]
          end);
  left; apply sound_result_by_count.

Lemma eco_validateRegistry_sound (h : Host) (loaded : Loaded) (st : RegistryValidator) :
  sound_result (run h (Eco.validateRegistry loaded) st).
Proof. unfold Eco.validateRegistry. try_block_sound h. Qed.

Lemma strict_validateRegistry_sound (h : Host) (loaded : Loaded)
      (st : RegistryValidator) :
  sound_result (run h (Strict.validateRegistry loaded) st).
Proof. unfold Strict.validateRegistry. try_block_sound h. Qed.

(** C5.  Whatever was loaded, whatever the host replies and whatever the
    instance already holds, [validateRegistry] returns a result, and the
    flag [isValid] of that result is [true] exactly when its [errors] are
    empty; in both revisions, the handler of the [catch] and the return
    for no entries included. *)
Theorem validity_iff_no_errors (h : Host) (loaded : Loaded) (st : RegistryValidator) :
  (exists r st',
     run h (Eco.validateRegistry loaded) st = (Returns r, st') /\
     (isValid r = true <-> errors r = [])) /\
  (exists r st',
     run h (Strict.validateRegistry loaded) st = (Returns r, st') /\
     (isValid r = true <-> errors r = [])).
Proof.
  split.
  - destruct (eco_validateRegistry_sound h loaded st) as (r & st' & ? & _ & ?).
    eauto.
  - destruct (strict_validateRegistry_sound h loaded st) as (r & st' & ? & _ & ?).
    eauto.
Qed.

Lemma sound_accumulates (v : Loaded -> Prog ValidationResult) :
  (forall h loaded st, sound_result (run h (v loaded) st)) ->
  accumulates v.
Proof.
  intros Hs h1 h2 loaded1 loaded2 st.
  destruct (Hs h1 loaded1 st) as (r1 & st1 & E1 & R1 & _).
  destruct (Hs h2 loaded2 st1) as (r2 & st2 & E2 & R2 & _).
  destruct (run_appends h1 (v loaded1) st) as (a1 & _ & A1 & _).
  destruct (run_appends h2 (v loaded2) st1) as (a2 & _ & A2 & _).
  rewrite E1 in A1. rewrite E2 in A2. simpl in A1, A2.
  exists r1, st1, r2, st2, a1, a2. repeat split; auto.
  now rewrite R2, R1.
Qed.

(** C10.  [this.errors] only grows and is never reset: every error a call
    of [validateRegistry] appends is in the result of that call, and the
    result of a second call on the same instance begins with all the errors
    of the first; in both revisions. *)
Theorem errors_accumulate_across_calls :
  accumulates Eco.validateRegistry /\ accumulates Strict.validateRegistry.
Proof.
  split; apply sound_accumulates.
  - apply eco_validateRegistry_sound.
  - apply strict_validateRegistry_sound.
Qed.

(** * The entry under test *)

Lemma is_entry_object_typed (v : JsVal) : is_entry v = object_typed v.
Proof.
  destruct v; unfold is_entry; simpl; rewrite ?andb_false_r; reflexivity.
Qed.

Lemma no_object_typed_no_entries (items : list JsVal) :
  (forall v, In v items -> object_typed v = false) ->
  filter is_entry items = [].
Proof.
  induction items as [|v items IH]; intros H; simpl; [reflexivity|].
  rewrite is_entry_object_typed, (H v (or_introl eq_refl)).
  apply IH. intros w Hw. apply H. now right.
Qed.

(** The entries the filter keeps end with the last object-typed record. *)
Lemma entries_end_with_last (items : list JsVal) :
  match last_object_typed items with
  | None => filter is_entry items = []
  | Some entry => exists front, filter is_entry items = (front ++ [entry])%list
  end.
Proof.
  unfold last_object_typed.
  induction items as [|v items IH] using rev_ind; [reflexivity|].
  rewrite fold_left_app, filter_app. simpl.
  rewrite is_entry_object_typed.
  destruct (object_typed v).
  - eexists. reflexivity.
  - rewrite app_nil_r. exact IH.
Qed.

Lemma last_index (front : list JsVal) (entry d : JsVal) :
  nth (List.length (front ++ [entry]) - 1) (front ++ [entry]) d = entry.
Proof.
  rewrite length_app. simpl.
  replace (List.length front + 1 - 1)%nat with (List.length front) by lia.
  apply nth_middle.
Qed.

Lemma length_snoc_nonzero (front : list JsVal) (entry : JsVal) :
  (List.length (front ++ [entry]) =? 0)%nat = false.
Proof. rewrite length_app. simpl. apply Nat.eqb_neq. lia. Qed.

(** The two revisions, once the document is a sequence: all that is used of
    the entries the filter keeps is whether there are any, and the last. *)
Ltac by_last_entry items1 items2 Hlast :=
  rewrite !run_try_catch, !run_bind; simpl load; cbn [run];
  rewrite !run_bind; simpl filter_entries; cbn [run Monad.ret Monad_Prog];
  generalize (entries_end_with_last items1);
  generalize (entries_end_with_last items2);
  rewrite Hlast;
  destruct (last_object_typed items2) as [entry|];
  [ intros (front2 & ->) (front1 & ->);
    rewrite !length_snoc_nonzero, !last_index; reflexivity
  | intros -> ->; reflexivity ].

(** C6.  The result depends on the parsed sequence through its last
    object-typed record only: two sequences with the same last object-typed
    record (or with none) take the validator, on the same host and instance,
    to the same outcome, the same errors and the same requests; in both
    revisions. *)
Theorem depends_only_on_last_entry
        (h : Host) (items1 items2 : list JsVal) (st : RegistryValidator) :
  last_object_typed items1 = last_object_typed items2 ->
  run h (Eco.validateRegistry (inr (JArr items1))) st =
  run h (Eco.validateRegistry (inr (JArr items2))) st /\
  run h (Strict.validateRegistry (inr (JArr items1))) st =
  run h (Strict.validateRegistry (inr (JArr items2))) st.
Proof.
  intros Hlast. split.
  - unfold Eco.validateRegistry. by_last_entry items1 items2 Hlast.
  - unfold Strict.validateRegistry. by_last_entry items1 items2 Hlast.
Qed.

(** C8.  On a new instance, when reading or parsing threw, and when the
    parsed sequence has no object-typed record, [validateRegistry] returns
    (it does not throw) a result with [isValid = false] and exactly one
    error, and sends no request; in both revisions. *)
Theorem parse_failure_or_no_entries_single_error (h : Host) :
  (forall e : Exn,
     let msg := "Failed to parse registry file: " ++ error_text e in
     run h (Eco.validateRegistry (inl e)) new_RegistryValidator =
     (Returns {| isValid := false; errors := [msg] |},
      {| this_errors := [msg]; requests := [] |}) /\
     run h (Strict.validateRegistry (inl e)) new_RegistryValidator =
     (Returns {| isValid := false; errors := [msg] |},
      {| this_errors := [msg]; requests := [] |})) /\
  (forall items : list JsVal,
     (forall v, In v items -> object_typed v = false) ->
     let msg := "No valid registry entries found" in
     run h (Eco.validateRegistry (inr (JArr items))) new_RegistryValidator =
     (Returns {| isValid := false; errors := [msg] |},
      {| this_errors := [msg]; requests := [] |}) /\
     run h (Strict.validateRegistry (inr (JArr items))) new_RegistryValidator =
     (Returns {| isValid := false; errors := [msg] |},
      {| this_errors := [msg]; requests := [] |})).
Proof.
  split.
  - intros e. split; reflexivity.
  - intros items Hnone. apply no_object_typed_no_entries in Hnone.
    split.
    + unfold Eco.validateRegistry.
      rewrite run_try_catch, !run_bind. simpl load. cbn [run].
      simpl filter_entries. cbn [run Monad.ret Monad_Prog].
      rewrite Hnone. reflexivity.
    + unfold Strict.validateRegistry.
      rewrite run_try_catch, !run_bind. simpl load. cbn [run].
      simpl filter_entries. cbn [run Monad.ret Monad_Prog].
      rewrite Hnone. reflexivity.
Qed.

(** C9.  Two runs over the same loaded input, each on a new instance, whose
    hosts parse JSON alike and whose clients gave the same replies in the
    same order, return the same result: the same flag and the same error
    strings in the same order; in both revisions. *)
Theorem validateRegistry_deterministic (h1 h2 : Host) (loaded : Loaded) :
  (forall text, JSON_parse h1 text = JSON_parse h2 text) ->
  (replies h1 (Eco.validateRegistry loaded) new_RegistryValidator =
   replies h2 (Eco.validateRegistry loaded) new_RegistryValidator ->
   validate_eco h1 loaded = validate_eco h2 loaded) /\
  (replies h1 (Strict.validateRegistry loaded) new_RegistryValidator =
   replies h2 (Strict.validateRegistry loaded) new_RegistryValidator ->
   validate_strict h1 loaded = validate_strict h2 loaded).
Proof.
  intros HJ. unfold validate_eco, validate_strict.
  split; intros Hr; now rewrite (run_same_replies _ h1 h2 _ HJ Hr).
Qed.

(** * Strings *)

Lemma afterPrefix_app (p rest : string) : Js.afterPrefix p (p ++ rest) = Some rest.
Proof.
  induction p as [|c p IH]; simpl; [reflexivity|].
  now rewrite Ascii.eqb_refl.
Qed.

Lemma afterPrefix_Some (p s rest : string) :
  Js.afterPrefix p s = Some rest -> s = p ++ rest.
Proof.
  revert s. induction p as [|c p IH]; intros s; simpl.
  - now intros [= ->].
  - destruct s as [|d s]; [discriminate|].
    destruct (Ascii.eqb c d) eqn:E; [|discriminate].
    apply Ascii.eqb_eq in E. subst d. intros H. now rewrite (IH _ H).
Qed.

Lemma all_chars_app (f : ascii -> bool) (a b : string) :
  Js.all_chars f (a ++ b) = Js.all_chars f a && Js.all_chars f b.
Proof.
  induction a as [|c a IH]; simpl; [reflexivity|].
  now rewrite IH, andb_assoc.
Qed.

Lemma span_spec (f : ascii -> bool) (s a b : string) :
  Js.span f s = (a, b) -> s = a ++ b /\ Js.all_chars f a = true.
Proof.
  revert a b. induction s as [|c s IH]; intros a b; simpl.
  - now intros [= <- <-].
  - destruct (f c) eqn:E.
    + destruct (Js.span f s) as [a' b'] eqn:Es. intros [= <- <-].
      destruct (IH _ _ eq_refl) as [-> Hall]. simpl. now rewrite E.
    + now intros [= <- <-].
Qed.

Lemma span_app (f : ascii -> bool) (a b : string) :
  Js.all_chars f a = true ->
  Js.span f (a ++ b) = (a ++ fst (Js.span f b), snd (Js.span f b)).
Proof.
  induction a as [|c a IH]; simpl.
  - intros _. now destruct (Js.span f b).
  - intros H. apply andb_true_iff in H as [Hc Ha]. rewrite Hc, (IH Ha).
    reflexivity.
Qed.

Lemma append_empty_r (s : string) : s ++ EmptyString = s.
Proof. induction s as [|c s IH]; simpl; congruence. Qed.

Lemma append_assoc' (a b c : string) : (a ++ b) ++ c = a ++ b ++ c.
Proof. induction a as [|x a IH]; simpl; congruence. Qed.

(** ** White space and [trim] *)

Lemma trimStart_all_white (s : string) :
  Js.all_chars Js.is_white (Js.trimStart s) = true ->
  Js.all_chars Js.is_white s = true.
Proof.
  induction s as [|c s IH]; simpl; [reflexivity|].
  destruct (Js.is_white c) eqn:E; simpl.
  - exact IH.
  - now rewrite E.
Qed.

Lemma trimEnd_empty (s : string) :
  Js.trimEnd s = EmptyString -> Js.all_chars Js.is_white s = true.
Proof.
  induction s as [|c s IH]; simpl; [reflexivity|].
  destruct (Js.trimEnd s) as [|d t]; [|discriminate].
  destruct (Js.is_white c); [|discriminate].
  intros _. now apply IH.
Qed.

Lemma trim_empty (s : string) :
  Js.trim s = EmptyString -> Js.all_chars Js.is_white s = true.
Proof.
  intros H. apply trimStart_all_white, trimEnd_empty, H.
Qed.

(** ** The pattern, against what it is meant to find *)

Lemma match_here_Some (s owner repo : string) :
  match_here s = Some (owner, repo) ->
  exists after,
    s = "https://github.com/" ++ owner ++ "/" ++ repo ++ after /\
    owner <> EmptyString /\ repo <> EmptyString /\
    slash_free owner /\ slash_free repo.
Proof.
  unfold match_here.
  destruct (Js.afterPrefix "https://github.com/" s) as [rest|] eqn:Ep;
    [|discriminate].
  apply afterPrefix_Some in Ep.
  destruct (Js.span not_slash rest) as [o rest1] eqn:Eo.
  apply span_spec in Eo as [-> Ho].
  destruct o as [|c0 o]; [discriminate|].
  destruct rest1 as [|c rest2]; [discriminate|].
  destruct (Ascii.eqb c "/") eqn:Ec; [|discriminate].
  apply Ascii.eqb_eq in Ec. subst c.
  destruct (Js.span not_slash rest2) as [r after] eqn:Er.
  apply span_spec in Er as [-> Hr].
  destruct r as [|c1 r]; [discriminate|].
  intros [= <- <-]. exists after. subst s.
  repeat split; try discriminate; assumption.
Qed.

Lemma match_here_found (owner repo after : string) :
  owner <> EmptyString -> repo <> EmptyString ->
  slash_free owner -> slash_free repo ->
  exists m,
    match_here ("https://github.com/" ++ owner ++ "/" ++ repo ++ after) = Some m.
Proof.
  intros Ho Hr So Sr. unfold match_here.
  rewrite afterPrefix_app, (span_app _ _ _ So). simpl.
  rewrite append_empty_r.
  destruct owner as [|c0 owner]; [contradiction|].
  rewrite (span_app _ _ _ Sr).
  destruct repo as [|c1 repo]; [contradiction|].
  simpl. eauto.
Qed.

Lemma github_match_here (s : string) (m : string * string) :
  match_here s = Some m -> github_match s = Some m.
Proof.
  intros H. destruct s; [simpl in H; discriminate|].
  cbn [github_match]. now rewrite H.
Qed.

(** [url.match] finds something exactly when the string holds a part of the
    shape. *)
Lemma github_match_iff (s : string) :
  (exists m, github_match s = Some m) <-> contains_github_url s.
Proof.
  split.
  - induction s as [|c s IH].
    + intros [m H]. simpl in H. discriminate.
    + intros [m H]. cbn [github_match] in H.
      destruct (match_here (String c s)) as [[o r]|] eqn:E.
      * apply match_here_Some in E as (after & -> & ?).
        exists EmptyString, o, r, after. auto.
      * destruct (IH (ex_intro _ m H))
          as (before & o & r & after & -> & ?).
        exists (String c before), o, r, after. auto.
  - intros (before & owner & repo & after & -> & Ho & Hr & So & Sr).
    destruct (match_here_found after Ho Hr So Sr) as [m Hm].
    induction before as [|c before IH].
    + exists m. now apply github_match_here.
    + destruct IH as [m' Hm'].
      change (String c before ++ ?x) with (String c (before ++ x)).
      cbn [github_match].
      destruct (match_here (String c _)); eauto.
Qed.

Lemma github_match_None (s : string) :
  github_match s = None <-> ~ contains_github_url s.
Proof.
  rewrite <- github_match_iff. split.
  - intros H [m Hm]. congruence.
  - intros H. destruct (github_match s) as [m|]; [|reflexivity].
    exfalso. eauto.
Qed.

(** A string that holds a GitHub URL is not blank. *)
Lemma contains_not_blank (s : string) :
  contains_github_url s -> not_string_or_blank (JStr s) = false.
Proof.
  intros (before & owner & repo & after & -> & _).
  unfold not_string_or_blank. simpl typeof_string. simpl str. simpl negb.
  simpl orb. apply String.eqb_neq. intros H. apply trim_empty in H.
  rewrite all_chars_app in H. apply andb_true_iff in H as [_ H].
  simpl in H. discriminate.
Qed.

(** * The repository URL check, one URL at a time *)

Lemma run_loop_cons (A : Type) (h : Host) (body : A -> Prog Completion)
      (x : A) (rest : list A) (st : RegistryValidator) :
  run h (loop_method (x :: rest) body) st =
  match run h (body x) st with
  | (Returns Return, st') => (Returns tt, st')
  | (Returns _, st') => run h (loop_method rest body) st'
  | (Throws e, st') => (Throws e, st')
  end.
Proof.
  unfold loop_method. cbn [for_of].
  rewrite !run_bind.
  destruct (run h (body x) st) as [[c|e] st']; [|reflexivity].
  destruct c; try reflexivity; now rewrite run_bind.
Qed.

Lemma urls_body_blank (h : Host) (st : RegistryValidator) (url : string) :
  not_string_or_blank (JStr url) = true ->
  run h (validateRepositoryUrls_body (JStr url)) st =
  (Returns Continue, with_error st ("Invalid repository URL: '" ++ url ++ "'")).
Proof.
  intros Hb. unfold validateRepositoryUrls_body. rewrite Hb. reflexivity.
Qed.

Lemma urls_body_no_match (h : Host) (st : RegistryValidator) (url : string) :
  not_string_or_blank (JStr url) = false ->
  github_match url = None ->
  run h (validateRepositoryUrls_body (JStr url)) st =
  (Returns Continue, with_error st ("Invalid GitHub URL format: '" ++ url ++ "'")).
Proof.
  intros Hb Hm. unfold validateRepositoryUrls_body. rewrite Hb.
  simpl str. rewrite Hm. reflexivity.
Qed.

Lemma urls_body_match (h : Host) (st : RegistryValidator)
      (url owner repo : string) :
  not_string_or_blank (JStr url) = false ->
  github_match url = Some (owner, repo) ->
  let q := ReposGet (Js.trim owner) (Js.trim (strip_dot_git repo)) in
  run h (validateRepositoryUrls_body (JStr url)) st =
  (Returns Normal,
   {| this_errors :=
        this_errors st ++ lookup_errors url (octokit h (requests st) q);
      requests := requests st ++ [q] |}).
Proof.
  intros Hb Hm q. unfold validateRepositoryUrls_body. rewrite Hb.
  simpl str. rewrite Hm. cbn [try_catch Monad.bind Monad_Prog bind await run].
  fold q. destruct (octokit h (requests st) q) as [e|status data].
  - reflexivity.
  - simpl.
    destruct (status =? 200)%Z; simpl; rewrite ?app_nil_r; reflexivity.
Qed.

(** A string without a GitHub URL in it gets one error and no lookup. *)
Lemma urls_body_rejects (h : Host) (st : RegistryValidator) (url : string) :
  ~ contains_github_url url ->
  exists msg,
    (msg = "Invalid repository URL: '" ++ url ++ "'" \/
     msg = "Invalid GitHub URL format: '" ++ url ++ "'") /\
    run h (validateRepositoryUrls_body (JStr url)) st =
    (Returns Continue, with_error st msg).
Proof.
  intros Hn. apply github_match_None in Hn.
  destruct (not_string_or_blank (JStr url)) eqn:Hb.
  - eexists. split; [left; reflexivity|]. now apply urls_body_blank.
  - eexists. split; [right; reflexivity|]. now apply urls_body_no_match.
Qed.

Lemma eco_body_no_match (h : Host) (st : RegistryValidator) (url : string) :
  github_match url = None ->
  run h (validateFlowEcosystemRequirements_body (JStr url)) st =
  (Returns Continue, st).
Proof.
  intros Hm. unfold validateFlowEcosystemRequirements_body, swallow, url_match.
  cbn [Monad.bind Monad.ret Monad_Prog bind]. rewrite Hm. reflexivity.
Qed.

(** C7.  For a string of [repos] that holds no GitHub URL, the iteration of
    [validateRepositoryUrls] appends exactly one format error, naming the
    string, and sends no request; the iteration of
    [validateFlowEcosystemRequirements] appends nothing and sends no request;
    and both loops go on with the rest of the list from there. *)
Theorem unparsable_url_one_error_no_probe
        (h : Host) (st : RegistryValidator) (url : string) (rest : list JsVal) :
  ~ contains_github_url url ->
  (exists msg,
     (msg = "Invalid repository URL: '" ++ url ++ "'" \/
      msg = "Invalid GitHub URL format: '" ++ url ++ "'") /\
     run h (validateRepositoryUrls_body (JStr url)) st =
     (Returns Continue, with_error st msg) /\
     run h (validateRepositoryUrls (JStr url :: rest)) st =
     run h (validateRepositoryUrls rest) (with_error st msg)) /\
  run h (validateFlowEcosystemRequirements_body (JStr url)) st =
  (Returns Continue, st) /\
  run h (validateFlowEcosystemRequirements (JStr url :: rest)) st =
  run h (validateFlowEcosystemRequirements rest) st.
Proof.
  intros Hn.
  destruct (urls_body_rejects h st Hn) as (msg & Hmsg & Hrun).
  apply github_match_None in Hn.
  pose proof (eco_body_no_match h st url Hn) as Heco.
  split; [exists msg; split; [exact Hmsg|split; [exact Hrun|]] | split; [exact Heco|]].
  - unfold validateRepositoryUrls. now rewrite run_loop_cons, Hrun.
  - unfold validateFlowEcosystemRequirements. now rewrite run_loop_cons, Heco.
Qed.

Lemma not_a_url_contains_nothing : ~ contains_github_url not_a_url.
Proof. apply github_match_None. reflexivity. Qed.

Lemma unparsable_url_one_error_no_probe_witness :
  run bare_host (validateRepositoryUrls [JStr not_a_url]) new_RegistryValidator =
  (Returns tt,
   {| this_errors := ["Invalid GitHub URL format: 'not-a-url'"];
      requests := [] |}) /\
  run bare_host (validateFlowEcosystemRequirements [JStr not_a_url])
      new_RegistryValidator =
  (Returns tt, new_RegistryValidator).
Proof.
  destruct (unparsable_url_one_error_no_probe bare_host new_RegistryValidator
              [] not_a_url_contains_nothing)
    as [(msg & _ & _ & Hurls) (_ & Heco)].
  split.
  - reflexivity.
  - rewrite Heco. reflexivity.
Defined.

Lemma no_lookup_sent (st : RegistryValidator) (msg : string) (q : Request) :
  requests (with_error st msg) <> (requests st ++ [q])%list.
Proof.
  simpl. intros H. apply (f_equal (@List.length _)) in H.
  rewrite length_app in H. simpl in H. lia.
Qed.

Lemma tree_url_contains : contains_github_url tree_url.
Proof. apply github_match_iff. eexists. reflexivity. Qed.

(** The claim C3 fails where a URL has more than an owner and a name:
    [tree_url] is not of the shape as a whole, and yet the check sends the
    lookup for [acme/widget] and appends no error. *)
Lemma tree_url_accepted_though_not_of_the_shape :
  ~ github_url_shape tree_url /\
  sends_lookup bare_host new_RegistryValidator tree_url /\
  run bare_host (validateRepositoryUrls_body (JStr tree_url))
      new_RegistryValidator =
  (Returns Normal,
   {| this_errors := []; requests := [ReposGet "acme" "widget"] |}).
Proof.
  split; [|split].
  - intros (owner & repo & H & _ & _ & So & Sr).
    unfold tree_url in H. simpl in H.
    injection H as H.
    unfold slash_free in So, Sr.
    repeat (destruct owner as [|? owner];
            [ simpl in H; try discriminate H
            | simpl in H; injection H as <- H;
              simpl in So; try discriminate So ]).
    injection H as <-. vm_compute in Sr. discriminate Sr.
  - exists "acme", "widget". reflexivity.
  - reflexivity.
Qed.

(** * Wallet addresses *)

Lemma test_0x_hex_iff (n : nat) (s : string) :
  Js.test_0x_hex n s = true <-> exact_0x_hex n s.
Proof.
  unfold Js.test_0x_hex, exact_0x_hex. split.
  - destruct (Js.afterPrefix "0x" s) as [digits|] eqn:E; [|discriminate].
    apply afterPrefix_Some in E. intros H.
    apply andb_true_iff in H as [Hl Hh]. apply Nat.eqb_eq in Hl.
    exists digits. auto.
  - intros (digits & -> & Hl & Hh).
    rewrite afterPrefix_app, Hl, Nat.eqb_refl. exact Hh.
Qed.

(** The three tests of line 264 come to the pattern alone. *)
Lemma bad_evm_address_iff (s : string) :
  bad_evm_address s = false <-> exact_0x_hex 40 s.
Proof.
  unfold bad_evm_address. rewrite <- test_0x_hex_iff. split.
  - intros H. apply orb_false_iff in H as [_ H].
    now apply negb_false_iff in H.
  - intros H. rewrite H.
    apply test_0x_hex_iff in H as (digits & -> & Hl & _).
    simpl. now rewrite Hl, Nat.eqb_refl.
Qed.

Lemma bad_evm_address_true (s : string) :
  bad_evm_address s = true <-> ~ exact_0x_hex 40 s.
Proof.
  rewrite <- bad_evm_address_iff. destruct (bad_evm_address s); split;
    congruence.
Qed.

(** What either revision does with an [evm] field that is a string and is
    not empty. *)
Lemma run_evm_test (h : Host) (st : RegistryValidator) (evm : string) :
  run h (when (bad_evm_address (Js.trim evm))
              (push (evm_message (Js.trim evm)))) st =
  (Returns tt,
   {| this_errors :=
        this_errors st
        ++ (if bad_evm_address (Js.trim evm)
            then [evm_message (Js.trim evm)] else []);
      requests := requests st |}).
Proof.
  destruct (bad_evm_address (Js.trim evm)); simpl; [reflexivity|].
  rewrite app_nil_r. now destruct st.
Qed.

(** The [flow] half of [validateWalletAddresses], in both revisions: it
    returns, sends nothing, and none of the errors it appends is one of the
    EVM address test. *)
Lemma eco_flow_half (h : Host) (st : RegistryValidator) (flow : JsVal) :
  exists added,
    run h (when (truthy flow && typeof_string flow)
                (let flowAddress := Js.trim (str flow) in
                 when (bad_flow_address flowAddress)
                      (push (flow_message flowAddress)))) st =
    (Returns tt,
     {| this_errors := this_errors st ++ added; requests := requests st |}) /\
    filter is_evm_error added = [].
Proof.
  destruct (truthy flow && typeof_string flow); cbn [when].
  - cbv zeta. destruct (bad_flow_address (Js.trim (str flow))); cbn [when].
    + eexists. split; reflexivity.
    + exists []. rewrite app_nil_r. now destruct st.
  - exists []. rewrite app_nil_r. now destruct st.
Qed.

Lemma strict_flow_half (h : Host) (st : RegistryValidator) (flow : JsVal) :
  exists added,
    run h (if negb (truthy flow) || negb (typeof_string flow) then
             push "Missing or invalid 'flow' wallet address"
           else
             let flowAddress := Js.trim (str flow) in
             when (bad_flow_address flowAddress)
                  (push (flow_message flowAddress))) st =
    (Returns tt,
     {| this_errors := this_errors st ++ added; requests := requests st |}) /\
    filter is_evm_error added = [].
Proof.
  destruct (negb (truthy flow) || negb (typeof_string flow)).
  - eexists. split; reflexivity.
  - cbv zeta. destruct (bad_flow_address (Js.trim (str flow))); cbn [when].
    + eexists. split; reflexivity.
    + exists []. rewrite app_nil_r. now destruct st.
Qed.

Lemma truthy_nonempty (s : string) :
  s <> EmptyString -> truthy (JStr s) = true.
Proof.
  intros H. simpl. apply negb_true_iff. now apply String.eqb_neq.
Qed.

(** The errors [validateWalletAddresses] appends for a record whose [evm]
    is a string that is not empty: the ones of the EVM address test are the
    message for the trimmed value when that value is malformed, and none
    otherwise. *)
Lemma wallets_evm_errors (h : Host) (st : RegistryValidator)
      (fields : list (string * JsVal)) (evm : string) :
  lookup "evm" fields = JStr evm -> evm <> EmptyString ->
  (exists added,
     run h (Eco.validateWalletAddresses (JObj fields)) st =
     (Returns tt,
      {| this_errors := this_errors st ++ added; requests := requests st |}) /\
     filter is_evm_error added =
     (if bad_evm_address (Js.trim evm) then [evm_message (Js.trim evm)] else []))
  /\
  (exists added,
     run h (Strict.validateWalletAddresses (JObj fields)) st =
     (Returns tt,
      {| this_errors := this_errors st ++ added; requests := requests st |}) /\
     filter is_evm_error added =
     (if bad_evm_address (Js.trim evm) then [evm_message (Js.trim evm)] else [])).
Proof.
  intros Hevm Hne. pose proof (truthy_nonempty Hne) as Ht.
  split.
  - unfold Eco.validateWalletAddresses.
    rewrite run_bind. cbn [member prop run]. rewrite Hevm.
    rewrite run_bind.
    replace (truthy (JStr evm) && typeof_string (JStr evm)) with true
      by (now rewrite Ht).
    cbn [when]. cbv zeta. cbn [str]. rewrite run_evm_test.
    rewrite run_bind. cbn [member prop run].
    match goal with
    | |- context [run h (when ?c ?p) ?s] =>
        destruct (eco_flow_half h s (lookup "flow" fields))
          as (added & Hrun & Hnone)
    end.
    cbv zeta in Hrun. rewrite Hrun. cbn [this_errors requests].
    eexists. rewrite <- app_assoc. split; [reflexivity|].
    rewrite filter_app, Hnone, app_nil_r.
    now destruct (bad_evm_address (Js.trim evm)).
  - unfold Strict.validateWalletAddresses.
    rewrite run_bind. cbn [member prop run]. rewrite Hevm.
    rewrite run_bind.
    replace (negb (truthy (JStr evm)) || negb (typeof_string (JStr evm)))
      with false by (now rewrite Ht).
    cbv zeta. cbn [str]. rewrite run_evm_test.
    rewrite run_bind. cbn [member prop run].
    match goal with
    | |- context [run h (if ?c then ?p else ?p') ?s] =>
        destruct (strict_flow_half h s (lookup "flow" fields))
          as (added & Hrun & Hnone)
    end.
    cbv zeta in Hrun. rewrite Hrun. cbn [this_errors requests].
    eexists. rewrite <- app_assoc. split; [reflexivity|].
    rewrite filter_app, Hnone, app_nil_r.
    now destruct (bad_evm_address (Js.trim evm)).
Qed.

Lemma run_bind_Returns (A B : Type) (h : Host) (p : Prog A) (f : A -> Prog B)
      (st st' : RegistryValidator) (b : B) :
  run h (Monad.bind p f) st = (Returns b, st') ->
  exists a st1, run h p st = (Returns a, st1) /\ run h (f a) st1 = (Returns b, st').
Proof.
  rewrite run_bind. destruct (run h p st) as [[a|e] st1]; [eauto|discriminate].
Qed.

Lemma appends_keep_nonempty (A : Type) (h : Host) (p : Prog A)
      (st st' : RegistryValidator) (out : Outcome A) :
  run h p st = (out, st') -> this_errors st <> [] -> this_errors st' <> [].
Proof.
  intros Hrun Hne. destruct (run_appends h p st) as (errs & _ & He & _).
  rewrite Hrun in He. simpl in He. rewrite He.
  intros H. now apply app_eq_nil in H.
Qed.

(** The [try] block of [validateRegistry] cannot return with no error once
    the wallet check has appended one: a malformed [evm] leaves
    [this.errors] non-empty. *)
Ltac nonempty_after_wallets h Hentry Hwallets Hevm Hne Hbad :=
  rewrite run_try_catch, !run_bind; simpl load; cbn [run];
  rewrite !run_bind; simpl filter_entries; cbn [run Monad.ret Monad_Prog];
  match goal with
  | |- context [filter is_entry ?items] =>
      generalize (entries_end_with_last items); rewrite Hentry;
      intros (? & ->)
  end;
  rewrite length_snoc_nonzero, last_index; cbv zeta;
  match goal with
  | |- context [match ?body with _ => _ end] =>
      let Hbody := fresh "Hbody" in
      destruct body as [[?|?] ?] eqn:Hbody;
      [ | simpl; intros Hnil; now apply app_eq_nil in Hnil ];
      cbn [snd];
      do 5 (apply run_bind_Returns in Hbody;
            destruct Hbody as (? & ? & _ & Hbody));
      rewrite run_bind in Hbody;
      match type of Hwallets with
      | prop ?entry _ = _ =>
          destruct entry; try discriminate Hwallets;
          cbn [member run] in Hbody; rewrite Hwallets in Hbody
      end;
      cbn [truthy when] in Hbody;
      apply run_bind_Returns in Hbody;
      destruct Hbody as (? & ? & Hw & Hbody);
      eapply appends_keep_nonempty; [exact Hbody|];
      match type of Hw with
      | run _ _ ?s = _ =>
          let added := fresh "added" in
          let Hrun := fresh "Hrun" in
          let Hf := fresh "Hf" in
          first
            [ destruct (proj1 (wallets_evm_errors h s _ Hevm Hne))
                as (added & Hrun & Hf);
              rewrite Hrun in Hw
            | destruct (proj2 (wallets_evm_errors h s _ Hevm Hne))
                as (added & Hrun & Hf);
              rewrite Hrun in Hw ];
          injection Hw as _ <-; cbn [this_errors];
          rewrite Hbad in Hf;
          destruct added; [discriminate Hf|];
          intros Hnil; now apply app_eq_nil in Hnil
      end
  end.

Lemma malformed_evm_leaves_errors (h : Host) (st : RegistryValidator)
      (items : list JsVal) (entry : JsVal) (fields : list (string * JsVal))
      (evm : string) :
  last_object_typed items = Some entry ->
  prop entry "wallets" = JObj fields ->
  lookup "evm" fields = JStr evm -> evm <> EmptyString ->
  bad_evm_address (Js.trim evm) = true ->
  this_errors (snd (run h (Eco.validateRegistry (inr (JArr items))) st)) <> [] /\
  this_errors (snd (run h (Strict.validateRegistry (inr (JArr items))) st)) <> [].
Proof.
  intros Hentry Hwallets Hevm Hne Hbad. split.
  - unfold Eco.validateRegistry.
    nonempty_after_wallets h Hentry Hwallets Hevm Hne Hbad.
  - unfold Strict.validateRegistry.
    nonempty_after_wallets h Hentry Hwallets Hevm Hne Hbad.
Qed.

(** C4, as the code has it.  For a [wallets] record whose [evm] is a string
    that is not empty, the wallet check of either revision appends exactly
    one EVM address error, naming the trimmed value, when the trimmed value
    is not [0x] followed by 40 hexadecimal digits, and no EVM address error
    when it is; and with such a malformed [evm] in the entry under test,
    [validateRegistry] returns [isValid = false]. *)
Theorem evm_error_iff_trimmed_value_malformed
        (h : Host) (st : RegistryValidator)
        (fields : list (string * JsVal)) (evm : string) :
  lookup "evm" fields = JStr evm -> evm <> EmptyString ->
  (exists added,
     run h (Eco.validateWalletAddresses (JObj fields)) st =
     (Returns tt,
      {| this_errors := this_errors st ++ added; requests := requests st |}) /\
     (filter is_evm_error added = [evm_message (Js.trim evm)] <->
      ~ exact_0x_hex 40 (Js.trim evm)) /\
     (filter is_evm_error added = [] <-> exact_0x_hex 40 (Js.trim evm))) /\
  (exists added,
     run h (Strict.validateWalletAddresses (JObj fields)) st =
     (Returns tt,
      {| this_errors := this_errors st ++ added; requests := requests st |}) /\
     (filter is_evm_error added = [evm_message (Js.trim evm)] <->
      ~ exact_0x_hex 40 (Js.trim evm)) /\
     (filter is_evm_error added = [] <-> exact_0x_hex 40 (Js.trim evm))) /\
  (~ exact_0x_hex 40 (Js.trim evm) ->
   forall (items : list JsVal) (entry : JsVal),
     last_object_typed items = Some entry ->
     prop entry "wallets" = JObj fields ->
     (exists r st',
        run h (Eco.validateRegistry (inr (JArr items))) st = (Returns r, st') /\
        isValid r = false) /\
     (exists r st',
        run h (Strict.validateRegistry (inr (JArr items))) st = (Returns r, st') /\
        isValid r = false)).
Proof.
  intros Hevm Hne.
  destruct (wallets_evm_errors h st fields Hevm Hne)
    as [(a1 & R1 & F1) (a2 & R2 & F2)].
  assert (Hcases :
            forall added,
              filter is_evm_error added =
              (if bad_evm_address (Js.trim evm)
               then [evm_message (Js.trim evm)] else []) ->
              (filter is_evm_error added = [evm_message (Js.trim evm)] <->
               ~ exact_0x_hex 40 (Js.trim evm)) /\
              (filter is_evm_error added = [] <-> exact_0x_hex 40 (Js.trim evm))).
  { intros added ->. destruct (bad_evm_address (Js.trim evm)) eqn:Hb.
    - apply bad_evm_address_true in Hb.
      repeat split; auto; try discriminate. intros He. contradiction.
    - apply bad_evm_address_iff in Hb.
      repeat split; auto; try discriminate. intros Hn. contradiction. }
  split; [exists a1; split; [exact R1|now apply Hcases]|].
  split; [exists a2; split; [exact R2|now apply Hcases]|].
  intros Hbad items entry Hentry Hwallets.
  apply bad_evm_address_true in Hbad.
  destruct (malformed_evm_leaves_errors h st items Hentry Hwallets Hevm Hne
                                        Hbad) as [He Hs].
  split.
  - destruct (eco_validateRegistry_sound h (inr (JArr items)) st)
      as (r & st' & Hrun & Herr & Hiff).
    exists r, st'. split; [exact Hrun|].
    rewrite Hrun in He. simpl in He.
    destruct (isValid r); [|reflexivity].
    exfalso. apply He. rewrite <- Herr. now apply Hiff.
  - destruct (strict_validateRegistry_sound h (inr (JArr items)) st)
      as (r & st' & Hrun & Herr & Hiff).
    exists r, st'. split; [exact Hrun|].
    rewrite Hrun in Hs. simpl in Hs.
    destruct (isValid r); [|reflexivity].
    exfalso. apply Hs. rewrite <- Herr. now apply Hiff.
Qed.

Lemma short_evm_malformed : ~ exact_0x_hex 40 (Js.trim "0x123").
Proof.
  intros (digits & H & Hl & _). vm_compute in H. injection H as <-.
  discriminate Hl.
Qed.

Lemma short_evm_not_empty : "0x123" <> EmptyString.
Proof. discriminate. Qed.

Lemma evm_error_iff_trimmed_value_malformed_witness :
  (exists added,
     run bare_host (Eco.validateWalletAddresses (JObj short_evm_wallets))
         new_RegistryValidator =
     (Returns tt, {| this_errors := [] ++ added; requests := [] |}) /\
     filter is_evm_error added = [evm_message "0x123"]) /\
  (exists r st',
     run bare_host (Eco.validateRegistry (inr (JArr [short_evm_entry])))
         new_RegistryValidator = (Returns r, st') /\
     isValid r = false).
Proof.
  destruct (evm_error_iff_trimmed_value_malformed
              bare_host new_RegistryValidator short_evm_wallets
              eq_refl short_evm_not_empty)
    as ((added & Hrun & Hone & _) & _ & Hwhole).
  split.
  - exists added. split; [exact Hrun|].
    apply Hone, short_evm_malformed.
  - exact (proj1 (Hwhole short_evm_malformed [short_evm_entry] short_evm_entry
                         eq_refl eq_refl)).
Defined.

(** The claim C4 fails where the value has white space around it:
    [padded_evm] is not [0x] followed by 40 hexadecimal digits, and yet
    neither revision appends an error for it. *)
Lemma padded_evm_gets_no_error :
  ~ exact_0x_hex 40 padded_evm /\
  run bare_host (Eco.validateWalletAddresses (JObj padded_evm_wallets))
      new_RegistryValidator = (Returns tt, new_RegistryValidator) /\
  run bare_host (Strict.validateWalletAddresses (JObj padded_evm_wallets))
      new_RegistryValidator = (Returns tt, new_RegistryValidator).
Proof.
  split; [|split; reflexivity].
  intros (digits & H & _). discriminate H.
Qed.

(** * The ecosystem check *)

(** When the README of the first URL has the marker, the method returns:
    that URL gets no error and no further probe, and the rest of the list is
    not looked at. *)
Lemma readme_marker_returns
      (h : Host) (st : RegistryValidator) (url owner repo text : string)
      (rest : list JsVal) :
  github_match url = Some (owner, repo) ->
  let q := ReposGetContent (Js.trim owner) (Js.trim (strip_dot_git repo))
                           "README.md" in
  octokit h (requests st) q = Fulfilled 200 (FileData text) ->
  Js.includes (Js.toLowerCase text) "on flow"
  || Js.includes (Js.toLowerCase text) "flow blockchain" = true ->
  run h (validateFlowEcosystemRequirements (JStr url :: rest)) st =
  (Returns tt,
   {| this_errors := this_errors st; requests := requests st ++ [q] |}).
Proof.
  intros Hm q Hreply Hmark.
  unfold validateFlowEcosystemRequirements. rewrite run_loop_cons.
  unfold validateFlowEcosystemRequirements_body, swallow, url_match.
  cbn [Monad.bind Monad.ret Monad_Prog bind]. rewrite Hm.
  unfold and_then at 1. rewrite run_try_catch, run_bind.
  unfold probe_readme, swallow. rewrite run_try_catch, run_bind.
  cbn [await run]. fold q. rewrite Hreply. cbn [run content_of].
  simpl Z.eqb. cbv iota. rewrite Hmark. reflexivity.
Qed.

(** C1, on the code.  With the README of [acme/widget] saying "Built on
    Flow" and nothing found for [acme/other]: checking [widget] then [other]
    sends the one README request and appends nothing, so [other] is never
    checked; checking [other] then [widget] appends the error for [other]. *)
Theorem readme_success_ends_the_whole_check :
  run acme_host
      (validateFlowEcosystemRequirements [JStr widget_url; JStr other_url])
      new_RegistryValidator =
  (Returns tt,
   {| this_errors := [];
      requests := [ReposGetContent "acme" "widget" "README.md"] |}) /\
  run acme_host
      (validateFlowEcosystemRequirements [JStr other_url; JStr widget_url])
      new_RegistryValidator =
  (Returns tt,
   {| this_errors := [requirements_message other_url];
      requests := [ReposGetContent "acme" "other" "README.md";
                   ReposGetContent "acme" "other" "package.json";
                   ReposGetContent "acme" "other" "go.mod";
                   ReposGetContent "acme" "other" EmptyString;
                   ReposGetContent "acme" "widget" "README.md"] |}).
Proof. split; vm_compute; reflexivity. Qed.

(** The loop over the listing fetches the two Hardhat files only. *)
Lemma only_hardhat_is_fetched (owner repoName : string) :
  is_solidity_config "truffle-config.js" = true /\
  is_solidity_config "foundry.toml" = true /\
  config_file_body owner repoName "truffle-config.js" = Ret Normal /\
  config_file_body owner repoName "foundry.toml" = Ret Normal.
Proof. repeat split. Qed.

(** C2, on the code.  A repository whose root holds [foundry.toml], or
    [truffle-config.js], naming the Flow EVM endpoint: the file is recognized
    and would be served, but it is never requested, and the error is
    appended; the same content in [hardhat.config.ts] is requested and
    satisfies the requirement. *)
Theorem foundry_and_truffle_configs_never_fetched :
  Js.includes flow_endpoint_config "evm.nodes.onflow.org" = true /\
  (forall config,
     In config ["foundry.toml"; "truffle-config.js"] ->
     is_solidity_config config = true /\
     octokit (config_host config)
             [ReposGetContent "acme" "contracts" "README.md";
              ReposGetContent "acme" "contracts" "package.json";
              ReposGetContent "acme" "contracts" "go.mod";
              ReposGetContent "acme" "contracts" EmptyString]
             (ReposGetContent "acme" "contracts" config) =
     Fulfilled 200 (FileData flow_endpoint_config) /\
     run (config_host config)
         (validateFlowEcosystemRequirements [JStr contracts_url])
         new_RegistryValidator =
     (Returns tt,
      {| this_errors := [requirements_message contracts_url];
         requests := [ReposGetContent "acme" "contracts" "README.md";
                      ReposGetContent "acme" "contracts" "package.json";
                      ReposGetContent "acme" "contracts" "go.mod";
                      ReposGetContent "acme" "contracts" EmptyString] |})) /\
  run (config_host "hardhat.config.ts")
      (validateFlowEcosystemRequirements [JStr contracts_url])
      new_RegistryValidator =
  (Returns tt,
   {| this_errors := [];
      requests := [ReposGetContent "acme" "contracts" "README.md";
                   ReposGetContent "acme" "contracts" "package.json";
                   ReposGetContent "acme" "contracts" "go.mod";
                   ReposGetContent "acme" "contracts" EmptyString;
                   ReposGetContent "acme" "contracts" "hardhat.config.ts"] |}).
Proof.
  split; [reflexivity|split].
  - intros config [<-|[<-|[]]]; repeat split; vm_compute; reflexivity.
  - vm_compute. reflexivity.
Qed.

(** * Instances of the theorems with hypotheses *)

Lemma depends_only_on_last_entry_witness :
  last_object_typed sample_items1 = last_object_typed sample_items2 /\
  run bare_host (Eco.validateRegistry (inr (JArr sample_items1)))
      new_RegistryValidator =
  run bare_host (Eco.validateRegistry (inr (JArr sample_items2)))
      new_RegistryValidator.
Proof.
  split; [reflexivity|].
  exact (proj1 (@depends_only_on_last_entry bare_host sample_items1
                  sample_items2 new_RegistryValidator eq_refl)).
Defined.

Lemma no_object_items_none :
  forall v, In v no_object_items -> object_typed v = false.
Proof.
  intros v [<-|[<-|[<-|[<-|[<-|[]]]]]]; reflexivity.
Defined.

Lemma parse_failure_or_no_entries_single_error_witness :
  run bare_host (Eco.validateRegistry (inr (JArr no_object_items)))
      new_RegistryValidator =
  (Returns {| isValid := false;
              errors := ["No valid registry entries found"] |},
   {| this_errors := ["No valid registry entries found"]; requests := [] |}).
Proof.
  exact (proj1 (proj2 (parse_failure_or_no_entries_single_error bare_host)
                      no_object_items no_object_items_none)).
Defined.

Lemma validateRegistry_deterministic_witness :
  validate_eco bare_host (inr (JArr [short_evm_entry])) =
  validate_eco other_host (inr (JArr [short_evm_entry])) /\
  validate_strict bare_host (inr (JArr [short_evm_entry])) =
  validate_strict other_host (inr (JArr [short_evm_entry])).
Proof.
  destruct (@validateRegistry_deterministic bare_host other_host
              (inr (JArr [short_evm_entry])) (fun _ => eq_refl))
    as [He Hs].
  split; [apply He|apply Hs]; reflexivity.
Defined.

(** A second call on the same instance, over the same input and with the
    same replies, does not return what the first call returned: the errors
    of the first call are still there. *)
Example second_call_keeps_first_errors :
  let first := run bare_host (Eco.validateRegistry (inr (JArr no_object_items)))
                   new_RegistryValidator in
  let second := run bare_host (Eco.validateRegistry (inr (JArr no_object_items)))
                    (snd first) in
  fst first =
  Returns {| isValid := false; errors := ["No valid registry entries found"] |}
  /\
  fst second =
  Returns {| isValid := false;
             errors := ["No valid registry entries found";
                        "No valid registry entries found"] |}.
Proof. split; reflexivity. Qed.

(** The result of a call is the array of the instance: after a valid first
    call, a second call that finds errors leaves the first result with
    [isValid = true] and errors to read. *)
Example first_result_sees_later_errors :
  let first := run acme_host (Eco.validateRegistry (inr (JArr [widget_entry])))
                   new_RegistryValidator in
  let second := run acme_host (Eco.validateRegistry (inr (JArr no_object_items)))
                    (snd first) in
  fst first = Returns {| isValid := true; errors := [] |} /\
  forall r, fst first = Returns r ->
            isValid r = true /\
            errors_read_at (snd second) r = ["No valid registry entries found"].
Proof.
  split; [vm_compute; reflexivity|].
  intros r H. vm_compute in H. injection H as <-. split; reflexivity.
Qed.

(** * Further properties of the methods *)

Lemma run_loop_nil (A : Type) (h : Host) (body : A -> Prog Completion)
      (st : RegistryValidator) :
  run h (loop_method [] body) st = (Returns tt, st).
Proof. reflexivity. Qed.

Lemma blank_not_string_or_blank (s : string) :
  not_string_or_blank (JStr s) = blank s.
Proof. reflexivity. Qed.

(** ** Handles *)

Lemma x_body_string (h : Host) (st : RegistryValidator) (s : string) :
  run h (validateXHandles_body (JStr s)) st =
  (Returns Normal,
   if blank s then with_error st ("Invalid X handle: '" ++ s ++ "'") else st).
Proof.
  unfold validateXHandles_body. rewrite blank_not_string_or_blank.
  destruct (blank s); reflexivity.
Qed.

Lemma x_body_no_request (h : Host) (st : RegistryValidator) (handle : JsVal) :
  requests (snd (run h (validateXHandles_body handle) st)) = requests st.
Proof.
  unfold validateXHandles_body.
  destruct (not_string_or_blank handle); [|reflexivity].
  unfold template. destruct (toString handle); reflexivity.
Qed.

Lemma x_handles_strings_run (h : Host) (st : RegistryValidator)
      (handles : list string) :
  run h (validateXHandles (map JStr handles)) st =
  (Returns tt,
   {| this_errors :=
        this_errors st
        ++ map (fun s => "Invalid X handle: '" ++ s ++ "'")
               (filter blank handles);
      requests := requests st |}).
Proof.
  revert st. induction handles as [|s rest IH]; intros st.
  - simpl. rewrite app_nil_r. now destruct st.
  - unfold validateXHandles in *. cbn [map]. rewrite run_loop_cons.
    rewrite x_body_string. cbn [filter]. destruct (blank s).
    + rewrite IH. cbn [map with_error this_errors requests].
      now rewrite <- app_assoc.
    + apply IH.
Qed.

(** The X handle check is a check of the format alone: whatever the list
    holds, it sends no request; and on a list of strings it returns after
    appending one error for each blank handle, in the order of the list. *)
Theorem x_handles_checked_by_format_only
        (h : Host) (st : RegistryValidator) :
  (forall handles : list JsVal,
     requests (snd (run h (validateXHandles handles) st)) = requests st) /\
  (forall handles : list string,
     run h (validateXHandles (map JStr handles)) st =
     (Returns tt,
      {| this_errors :=
           this_errors st
           ++ map (fun s => "Invalid X handle: '" ++ s ++ "'")
                  (filter blank handles);
         requests := requests st |})).
Proof.
  split.
  - intros handles. revert st.
    induction handles as [|x rest IH]; intros st; [reflexivity|].
    unfold validateXHandles in *. rewrite run_loop_cons.
    pose proof (x_body_no_request h st x) as Hx.
    destruct (run h (validateXHandles_body x) st) as [[c|e] st1];
      simpl in Hx; [|exact Hx].
    destruct c; try (rewrite IH; exact Hx). exact Hx.
  - intros handles. apply x_handles_strings_run.
Qed.

Lemma github_body_blank (h : Host) (st : RegistryValidator) (s : string) :
  blank s = true ->
  run h (validateGitHubHandles_body (JStr s)) st =
  (Returns Continue, with_error st ("Invalid GitHub handle: '" ++ s ++ "'")).
Proof.
  intros Hb. unfold validateGitHubHandles_body.
  rewrite blank_not_string_or_blank, Hb. reflexivity.
Qed.

Lemma github_body_lookup (h : Host) (st : RegistryValidator) (s : string) :
  blank s = false ->
  let q := UsersGetByUsername (Js.trim s) in
  run h (validateGitHubHandles_body (JStr s)) st =
  (Returns Normal,
   {| this_errors := this_errors st ++ handle_errors s (octokit h (requests st) q);
      requests := requests st ++ [q] |}).
Proof.
  intros Hb q. unfold validateGitHubHandles_body.
  rewrite blank_not_string_or_blank, Hb.
  cbn [try_catch Monad.bind Monad_Prog bind await run str]. fold q.
  destruct (octokit h (requests st) q) as [e|status data].
  - reflexivity.
  - simpl. destruct (status =? 200)%Z; simpl; rewrite ?app_nil_r; reflexivity.
Qed.

(** On a list of strings the GitHub handle check returns, and it has sent
    one user lookup for each handle that is not blank, with the handle
    trimmed, in the order of the list; a blank handle gets no lookup. *)
Theorem github_handles_one_lookup_each
        (h : Host) (st : RegistryValidator) (handles : list string) :
  exists errs,
    run h (validateGitHubHandles (map JStr handles)) st =
    (Returns tt,
     {| this_errors := this_errors st ++ errs;
        requests :=
          requests st
          ++ map (fun s => UsersGetByUsername (Js.trim s))
                 (filter (fun s => negb (blank s)) handles) |}) /\
    List.length errs <= List.length handles.
Proof.
  revert st. induction handles as [|s rest IH]; intros st.
  - exists []. simpl. rewrite !app_nil_r. split; [now destruct st|lia].
  - unfold validateGitHubHandles in *. cbn [map]. rewrite run_loop_cons.
    cbn [filter]. destruct (blank s) eqn:Hb; cbn [negb].
    + rewrite (github_body_blank h st s Hb).
      destruct (IH (with_error st ("Invalid GitHub handle: '" ++ s ++ "'")))
        as (errs & -> & Hlen).
      eexists. cbn [with_error this_errors requests].
      rewrite <- app_assoc. split; [reflexivity|]. simpl. lia.
    + rewrite (github_body_lookup h st s Hb).
      match goal with
      | |- context [run h _ ?s1] => destruct (IH s1) as (errs & -> & Hlen)
      end.
      eexists. cbn [this_errors requests map].
      rewrite <- !app_assoc. split; [reflexivity|].
      rewrite length_app. cbn [List.length].
      assert (List.length
                (handle_errors s
                   (octokit h (requests st) (UsersGetByUsername (Js.trim s))))
              <= 1).
      { unfold handle_errors.
        destruct (octokit h (requests st) _) as [e|status data]; simpl; [lia|].
        destruct (status =? 200)%Z; simpl; lia. }
      lia.
Qed.

(** When every user exists, the GitHub handle check of a list of strings
    appends errors for the blank handles only, one each, in order. *)
Theorem github_handles_pass_when_users_exist
        (h : Host) (st : RegistryValidator) (handles : list string) :
  users_exist h ->
  this_errors (snd (run h (validateGitHubHandles (map JStr handles)) st)) =
  (this_errors st
   ++ map (fun s => ("Invalid GitHub handle: '" ++ s ++ "'")%string)
          (filter blank handles))%list.
Proof.
  intros Hex. revert st. induction handles as [|s rest IH]; intros st.
  - simpl. now rewrite app_nil_r.
  - unfold validateGitHubHandles in *. cbn [map]. rewrite run_loop_cons.
    cbn [filter]. destruct (blank s) eqn:Hb.
    + rewrite (github_body_blank h st s Hb), IH.
      cbn [with_error this_errors map]. now rewrite <- app_assoc.
    + rewrite (github_body_lookup h st s Hb).
      destruct (Hex (requests st) (Js.trim s)) as [data ->].
      cbn [handle_errors]. simpl Z.eqb. cbv iota.
      rewrite IH. cbn [this_errors]. now rewrite app_nil_r.
Qed.

Lemma bare_host_users_exist : users_exist bare_host.
Proof. intros before username. exists OtherData. reflexivity. Qed.

Lemma github_handles_pass_when_users_exist_witness :
  this_errors
    (snd (run bare_host
              (validateGitHubHandles (map JStr ["alice"; "  "; " bob "]))
              new_RegistryValidator)) =
  ["Invalid GitHub handle: '  '"].
Proof.
  exact (@github_handles_pass_when_users_exist
           bare_host new_RegistryValidator ["alice"; "  "; " bob "]
           bare_host_users_exist).
Defined.

(** ** Required fields *)

Lemma run_when_push (h : Host) (st : RegistryValidator) (c : bool)
      (msg : string) :
  run h (when c (push msg)) st =
  (Returns tt,
   {| this_errors := this_errors st ++ (if c then [msg] else []);
      requests := requests st |}).
Proof.
  destruct c; simpl; [reflexivity|]. rewrite app_nil_r. now destruct st.
Qed.

Lemma member_object_typed (entry : JsVal) (k : string) :
  object_typed entry = true -> member entry k = Ret (prop entry k).
Proof. destruct entry; try discriminate; reflexivity. Qed.

Lemma bad_name_false (v : JsVal) : bad_name v = false <-> nonempty_string v.
Proof.
  unfold bad_name, nonempty_string. split.
  - destruct v; simpl; try discriminate;
      rewrite ?orb_true_r; try discriminate.
    destruct (s =? EmptyString) eqn:E; simpl; [discriminate|].
    apply String.eqb_neq in E. eauto.
  - intros (s & -> & Hs). simpl. apply String.eqb_neq in Hs.
    now rewrite Hs.
Qed.

Lemma bad_array_false (v : JsVal) : bad_array v = false <-> nonempty_array v.
Proof.
  unfold bad_array, nonempty_array. split.
  - destruct v as [| | | | |items|]; simpl; try discriminate;
      rewrite ?orb_true_r; try discriminate.
    destruct items as [|x rest]; [discriminate|eauto].
  - intros (x & rest & ->). reflexivity.
Qed.

(** What the required-field check appends, in both revisions. *)
Lemma eco_required_run (h : Host) (st : RegistryValidator) (entry : JsVal) :
  object_typed entry = true ->
  run h (Eco.validateRequiredFields entry) st =
  (Returns tt,
   {| this_errors :=
        this_errors st
        ++ (if bad_name (prop entry "name") then [name_message] else [])
        ++ (if bad_array (prop entry "github")
            then ["Missing or invalid 'github' field - must be a non-empty array"]
            else [])
        ++ (if bad_array (prop entry "repos")
            then ["Missing or invalid 'repos' field - must be a non-empty array"]
            else []);
      requests := requests st |}).
Proof.
  intros Ho. unfold Eco.validateRequiredFields.
  rewrite !(fun k => @member_object_typed entry k Ho).
  cbn [Monad.bind Monad_Prog bind].
  change (bind ?p ?f) with (Monad.bind p f).
  rewrite run_bind. fold (bad_name (prop entry "name")).
  rewrite run_when_push.
  rewrite run_bind. fold (bad_array (prop entry "github")).
  rewrite run_when_push. cbn [this_errors requests].
  fold (bad_array (prop entry "repos")).
  rewrite run_when_push. cbn [this_errors requests].
  now rewrite <- !app_assoc.
Qed.

Lemma strict_required_run (h : Host) (st : RegistryValidator) (entry : JsVal) :
  object_typed entry = true ->
  run h (Strict.validateRequiredFields entry) st =
  (Returns tt,
   {| this_errors :=
        this_errors st
        ++ (if bad_name (prop entry "name") then [name_message] else [])
        ++ (if bad_array (prop entry "github")
            then ["Missing or invalid 'github' field - must be a non-empty array"]
            else [])
        ++ (if bad_array (prop entry "repos")
            then ["Missing or invalid 'repos' field - must be a non-empty array"]
            else [])
        ++ (if negb (object_typed (prop entry "wallets"))
            then ["Missing or invalid 'wallets' field"] else []);
      requests := requests st |}).
Proof.
  intros Ho. unfold Strict.validateRequiredFields.
  rewrite !(fun k => @member_object_typed entry k Ho).
  cbn [Monad.bind Monad_Prog bind].
  change (bind ?p ?f) with (Monad.bind p f).
  rewrite run_bind. fold (bad_name (prop entry "name")).
  rewrite run_when_push.
  rewrite run_bind. fold (bad_array (prop entry "github")).
  rewrite run_when_push. cbn [this_errors requests].
  rewrite run_bind. fold (bad_array (prop entry "repos")).
  rewrite run_when_push. cbn [this_errors requests].
  replace (negb (truthy (prop entry "wallets"))
           || negb (typeof_object (prop entry "wallets")))
    with (negb (object_typed (prop entry "wallets")))
    by (rewrite <- is_entry_object_typed; unfold is_entry;
        now rewrite negb_andb).
  rewrite run_when_push. cbn [this_errors requests].
  now rewrite <- !app_assoc.
Qed.

Lemma run_try_catch_bind (A B : Type) (h : Host) (p : Prog A)
      (f : A -> Prog B) (handler : Exn -> Prog B) (st : RegistryValidator) :
  run h (try_catch (Monad.bind p f) handler) st =
  match run h p st with
  | (Returns a, st1) => run h (try_catch (f a) handler) st1
  | (Throws e, st1) => run h (handler e) st1
  end.
Proof.
  rewrite run_try_catch, run_bind.
  destruct (run h p st) as [[a|e] st1]; [|reflexivity].
  now rewrite run_try_catch.
Qed.

(** The required-field check of an object-typed entry sends no request and
    always returns; it appends no error exactly when [name] is a string that
    is not empty and [github] and [repos] are arrays that are not empty (and,
    in the second revision, [wallets] is a mapping or an array); it appends
    at most one error for each of these fields. *)
Theorem required_fields_pass_iff
        (h : Host) (st : RegistryValidator) (entry : JsVal) :
  object_typed entry = true ->
  (exists errs,
     run h (Eco.validateRequiredFields entry) st =
     (Returns tt,
      {| this_errors := this_errors st ++ errs; requests := requests st |}) /\
     List.length errs <= 3 /\
     (errs = [] <->
      nonempty_string (prop entry "name") /\
      nonempty_array (prop entry "github") /\
      nonempty_array (prop entry "repos"))) /\
  (exists errs,
     run h (Strict.validateRequiredFields entry) st =
     (Returns tt,
      {| this_errors := this_errors st ++ errs; requests := requests st |}) /\
     List.length errs <= 4 /\
     (errs = [] <->
      nonempty_string (prop entry "name") /\
      nonempty_array (prop entry "github") /\
      nonempty_array (prop entry "repos") /\
      object_typed (prop entry "wallets") = true)).
Proof.
  intros Ho.
  pose proof (bad_name_false (prop entry "name")) as Hn.
  pose proof (bad_array_false (prop entry "github")) as Hg.
  pose proof (bad_array_false (prop entry "repos")) as Hr.
  split.
  - eexists. split; [apply (eco_required_run h st entry Ho)|].
    destruct (bad_name (prop entry "name")),
             (bad_array (prop entry "github")),
             (bad_array (prop entry "repos")); simpl;
      (split; [lia|]); intuition discriminate.
  - eexists. split; [apply (strict_required_run h st entry Ho)|].
    destruct (bad_name (prop entry "name")),
             (bad_array (prop entry "github")),
             (bad_array (prop entry "repos")),
             (object_typed (prop entry "wallets")); simpl;
      (split; [lia|]); intuition discriminate.
Qed.

Lemma required_fields_pass_iff_witness :
  run bare_host (Eco.validateRequiredFields short_evm_entry)
      new_RegistryValidator = (Returns tt, new_RegistryValidator) /\
  run bare_host (Strict.validateRequiredFields nameless_entry)
      new_RegistryValidator =
  (Returns tt,
   {| this_errors := [name_message; "Missing or invalid 'wallets' field"];
      requests := [] |}).
Proof.
  destruct (@required_fields_pass_iff bare_host new_RegistryValidator
              short_evm_entry eq_refl) as [(errs & Hrun & _ & Hiff) _].
  split; [|reflexivity].
  assert (He : errs = []).
  { apply Hiff. repeat split.
    - exists "Team". split; [reflexivity|discriminate].
    - eexists _, _. reflexivity.
    - eexists _, _. reflexivity. }
  rewrite Hrun, He. reflexivity.
Defined.

(** An entry under test whose [name] is missing, empty or not a string has
    the error about [name] in the result of [validateRegistry], whatever
    its other fields hold and whatever the host replies; the result is
    invalid. *)
Theorem invalid_name_always_reported
        (h : Host) (st : RegistryValidator) (items : list JsVal)
        (entry : JsVal) :
  last_object_typed items = Some entry ->
  ~ nonempty_string (prop entry "name") ->
  (exists r st',
     run h (Eco.validateRegistry (inr (JArr items))) st = (Returns r, st') /\
     In name_message (errors r) /\ isValid r = false) /\
  (exists r st',
     run h (Strict.validateRegistry (inr (JArr items))) st = (Returns r, st') /\
     In name_message (errors r) /\ isValid r = false).
Proof.
  intros Hentry Hname.
  assert (Ho : object_typed entry = true).
  { generalize (entries_end_with_last items). rewrite Hentry.
    intros (front & Hf).
    assert (Hin : In entry (filter is_entry items))
      by (rewrite Hf; apply in_or_app; right; now left).
    apply filter_In in Hin as [_ Hin]. now rewrite <- is_entry_object_typed. }
  assert (Hbad : bad_name (prop entry "name") = true).
  { destruct (bad_name (prop entry "name")) eqn:E; [reflexivity|].
    now apply bad_name_false in E. }
  assert (Hend : forall r st',
             errors r = this_errors st' ->
             (isValid r = true <-> errors r = []) ->
             In name_message (this_errors st') ->
             In name_message (errors r) /\ isValid r = false).
  { intros r st' He Hiff Hin. rewrite He. split; [exact Hin|].
    destruct (isValid r); [|reflexivity].
    rewrite (proj1 Hiff eq_refl) in He. rewrite <- He in Hin. destruct Hin. }
  split.
  - destruct (eco_validateRegistry_sound h (inr (JArr items)) st)
      as (r & st' & Hrun & He & Hiff).
    exists r, st'. split; [exact Hrun|]. apply (Hend r st' He Hiff).
    replace st' with (snd (run h (Eco.validateRegistry (inr (JArr items))) st))
      by now rewrite Hrun.
    clear Hrun He Hiff. unfold Eco.validateRegistry.
    rewrite run_try_catch_bind. simpl load. cbn [run].
    rewrite run_try_catch_bind. simpl filter_entries.
    cbn [run Monad.ret Monad_Prog].
    generalize (entries_end_with_last items). rewrite Hentry.
    intros (front & ->).
    rewrite length_snoc_nonzero, last_index. cbv zeta.
    rewrite run_try_catch_bind, (eco_required_run h st entry Ho), Hbad.
    match goal with
    | |- In _ (this_errors (snd (run h ?p ?s))) =>
        destruct (run_appends h p s) as (more & _ & -> & _)
    end.
    cbn [this_errors]. apply in_or_app. left. apply in_or_app. right.
    now left.
  - destruct (strict_validateRegistry_sound h (inr (JArr items)) st)
      as (r & st' & Hrun & He & Hiff).
    exists r, st'. split; [exact Hrun|]. apply (Hend r st' He Hiff).
    replace st' with (snd (run h (Strict.validateRegistry (inr (JArr items))) st))
      by now rewrite Hrun.
    clear Hrun He Hiff. unfold Strict.validateRegistry.
    rewrite run_try_catch_bind. simpl load. cbn [run].
    rewrite run_try_catch_bind. simpl filter_entries.
    cbn [run Monad.ret Monad_Prog].
    generalize (entries_end_with_last items). rewrite Hentry.
    intros (front & ->).
    rewrite length_snoc_nonzero, last_index. cbv zeta.
    rewrite run_try_catch_bind, (strict_required_run h st entry Ho), Hbad.
    match goal with
    | |- In _ (this_errors (snd (run h ?p ?s))) =>
        destruct (run_appends h p s) as (more & _ & -> & _)
    end.
    cbn [this_errors]. apply in_or_app. left. apply in_or_app. right.
    now left.
Qed.

Lemma nameless_entry_has_no_name : ~ nonempty_string (prop nameless_entry "name").
Proof. intros (s & H & _). discriminate H. Qed.

Lemma invalid_name_always_reported_witness :
  exists r st',
    run acme_host (Eco.validateRegistry (inr (JArr [JNum 1; nameless_entry])))
        new_RegistryValidator = (Returns r, st') /\
    In name_message (errors r) /\ isValid r = false.
Proof.
  exact (proj1 (@invalid_name_always_reported
                  acme_host new_RegistryValidator [JNum 1; nameless_entry]
                  nameless_entry eq_refl nameless_entry_has_no_name)).
Defined.

(** A document that is not a sequence (a mapping, a scalar, nothing at all)
    makes [data.filter] throw: on a new instance the run returns an invalid
    result with the one error of the handler, and sends no request. *)
Theorem non_sequence_document_single_error (h : Host) (data : JsVal) :
  isArray data = false ->
  exists text,
    let msg := "Failed to parse registry file: " ++ text in
    run h (Eco.validateRegistry (inr data)) new_RegistryValidator =
    (Returns {| isValid := false; errors := [msg] |},
     {| this_errors := [msg]; requests := [] |}) /\
    run h (Strict.validateRegistry (inr data)) new_RegistryValidator =
    (Returns {| isValid := false; errors := [msg] |},
     {| this_errors := [msg]; requests := [] |}).
Proof.
  intros Ha. destruct data; try discriminate Ha;
    eexists; split; reflexivity.
Qed.

Lemma non_sequence_document_single_error_witness :
  exists text,
    run bare_host (Eco.validateRegistry (inr short_evm_entry))
        new_RegistryValidator =
    (Returns {| isValid := false;
                errors := ["Failed to parse registry file: " ++ text] |},
     {| this_errors := ["Failed to parse registry file: " ++ text];
        requests := [] |}).
Proof.
  destruct (@non_sequence_document_single_error bare_host short_evm_entry
              eq_refl) as (text & He & _).
  exists text. exact He.
Defined.

(** ** Wallets *)

Lemma bad_flow_address_iff (s : string) :
  bad_flow_address s = false <-> exact_0x_hex 16 s.
Proof.
  unfold bad_flow_address. split.
  - intros H. apply orb_false_iff in H as [_ H].
    apply negb_false_iff in H. now apply test_0x_hex_iff.
  - intros H. pose proof H as H'. apply test_0x_hex_iff in H'. rewrite H'.
    destruct H as (digits & -> & Hl & _).
    simpl. now rewrite Hl.
Qed.

Lemma guard_is_not_bad_name (v : JsVal) :
  truthy v && typeof_string v = negb (bad_name v).
Proof. unfold bad_name. now rewrite negb_orb, !negb_involutive. Qed.

(** The [evm] half of [validateWalletAddresses], in both revisions: it
    returns, sends nothing, and none of the errors it appends is one of the
    Flow address test. *)
Lemma eco_evm_half (h : Host) (st : RegistryValidator) (evm : JsVal) :
  exists added,
    run h (when (truthy evm && typeof_string evm)
                (let evmAddress := Js.trim (str evm) in
                 when (bad_evm_address evmAddress)
                      (push (evm_message evmAddress)))) st =
    (Returns tt,
     {| this_errors := this_errors st ++ added; requests := requests st |}) /\
    filter is_flow_error added = [].
Proof.
  destruct (truthy evm && typeof_string evm); cbn [when].
  - cbv zeta. destruct (bad_evm_address (Js.trim (str evm))); cbn [when].
    + eexists. split; reflexivity.
    + exists []. rewrite app_nil_r. now destruct st.
  - exists []. rewrite app_nil_r. now destruct st.
Qed.

Lemma strict_evm_half (h : Host) (st : RegistryValidator) (evm : JsVal) :
  exists added,
    run h (if negb (truthy evm) || negb (typeof_string evm) then
             push "Missing or invalid 'evm' wallet address"
           else
             let evmAddress := Js.trim (str evm) in
             when (bad_evm_address evmAddress)
                  (push (evm_message evmAddress))) st =
    (Returns tt,
     {| this_errors := this_errors st ++ added; requests := requests st |}) /\
    filter is_flow_error added = [].
Proof.
  destruct (negb (truthy evm) || negb (typeof_string evm)).
  - eexists. split; reflexivity.
  - cbv zeta. destruct (bad_evm_address (Js.trim (str evm))); cbn [when].
    + eexists. split; reflexivity.
    + exists []. rewrite app_nil_r. now destruct st.
Qed.

Lemma run_flow_test (h : Host) (st : RegistryValidator) (flow : string) :
  run h (when (bad_flow_address (Js.trim flow))
              (push (flow_message (Js.trim flow)))) st =
  (Returns tt,
   {| this_errors :=
        this_errors st
        ++ (if bad_flow_address (Js.trim flow)
            then [flow_message (Js.trim flow)] else []);
      requests := requests st |}).
Proof. apply run_when_push. Qed.

Lemma wallets_flow_errors (h : Host) (st : RegistryValidator)
      (fields : list (string * JsVal)) (flow : string) :
  lookup "flow" fields = JStr flow -> flow <> EmptyString ->
  (exists added,
     run h (Eco.validateWalletAddresses (JObj fields)) st =
     (Returns tt,
      {| this_errors := this_errors st ++ added; requests := requests st |}) /\
     filter is_flow_error added =
     (if bad_flow_address (Js.trim flow)
      then [flow_message (Js.trim flow)] else []))
  /\
  (exists added,
     run h (Strict.validateWalletAddresses (JObj fields)) st =
     (Returns tt,
      {| this_errors := this_errors st ++ added; requests := requests st |}) /\
     filter is_flow_error added =
     (if bad_flow_address (Js.trim flow)
      then [flow_message (Js.trim flow)] else [])).
Proof.
  intros Hflow Hne. pose proof (truthy_nonempty Hne) as Ht.
  split.
  - unfold Eco.validateWalletAddresses.
    rewrite run_bind. cbn [member prop run]. rewrite run_bind.
    destruct (eco_evm_half h st (lookup "evm" fields))
      as (added & Hrun & Hnone).
    cbv zeta in Hrun. rewrite Hrun.
    rewrite run_bind. cbn [member prop run]. rewrite Hflow.
    replace (truthy (JStr flow) && typeof_string (JStr flow)) with true
      by (now rewrite Ht).
    cbn [when]. cbv zeta. cbn [str]. rewrite run_flow_test.
    cbn [this_errors requests].
    eexists. rewrite <- app_assoc. split; [reflexivity|].
    rewrite filter_app, Hnone.
    now destruct (bad_flow_address (Js.trim flow)).
  - unfold Strict.validateWalletAddresses.
    rewrite run_bind. cbn [member prop run]. rewrite run_bind.
    destruct (strict_evm_half h st (lookup "evm" fields))
      as (added & Hrun & Hnone).
    cbv zeta in Hrun. rewrite Hrun.
    rewrite run_bind. cbn [member prop run]. rewrite Hflow.
    replace (negb (truthy (JStr flow)) || negb (typeof_string (JStr flow)))
      with false by (now rewrite Ht).
    cbv zeta. cbn [str]. rewrite run_flow_test.
    cbn [this_errors requests].
    eexists. rewrite <- app_assoc. split; [reflexivity|].
    rewrite filter_app, Hnone.
    now destruct (bad_flow_address (Js.trim flow)).
Qed.

(** For a [wallets] record whose [flow] is a string that is not empty, the
    wallet check of either revision appends exactly one Flow address error,
    naming the trimmed value, when the trimmed value is not [0x] followed by
    16 hexadecimal digits, and no Flow address error when it is; whatever
    [evm] holds. *)
Theorem flow_error_iff_trimmed_value_malformed
        (h : Host) (st : RegistryValidator)
        (fields : list (string * JsVal)) (flow : string) :
  lookup "flow" fields = JStr flow -> flow <> EmptyString ->
  (exists added,
     run h (Eco.validateWalletAddresses (JObj fields)) st =
     (Returns tt,
      {| this_errors := this_errors st ++ added; requests := requests st |}) /\
     (filter is_flow_error added = [flow_message (Js.trim flow)] <->
      ~ exact_0x_hex 16 (Js.trim flow)) /\
     (filter is_flow_error added = [] <-> exact_0x_hex 16 (Js.trim flow))) /\
  (exists added,
     run h (Strict.validateWalletAddresses (JObj fields)) st =
     (Returns tt,
      {| this_errors := this_errors st ++ added; requests := requests st |}) /\
     (filter is_flow_error added = [flow_message (Js.trim flow)] <->
      ~ exact_0x_hex 16 (Js.trim flow)) /\
     (filter is_flow_error added = [] <-> exact_0x_hex 16 (Js.trim flow))).
Proof.
  intros Hflow Hne.
  destruct (wallets_flow_errors h st fields Hflow Hne)
    as [(a1 & R1 & F1) (a2 & R2 & F2)].
  assert (Hcases :
            forall added,
              filter is_flow_error added =
              (if bad_flow_address (Js.trim flow)
               then [flow_message (Js.trim flow)] else []) ->
              (filter is_flow_error added = [flow_message (Js.trim flow)] <->
               ~ exact_0x_hex 16 (Js.trim flow)) /\
              (filter is_flow_error added = [] <-> exact_0x_hex 16 (Js.trim flow))).
  { intros added ->. destruct (bad_flow_address (Js.trim flow)) eqn:Hb.
    - assert (Hn : ~ exact_0x_hex 16 (Js.trim flow)).
      { intros He. apply bad_flow_address_iff in He. congruence. }
      repeat split; auto; try discriminate. intros He. contradiction.
    - apply bad_flow_address_iff in Hb.
      repeat split; auto; try discriminate. intros Hn. contradiction. }
  split; [exists a1; split; [exact R1|now apply Hcases]|].
  exists a2; split; [exact R2|now apply Hcases].
Qed.

Lemma capital_flow_not_empty : "0xABCDEF0123456789" <> EmptyString.
Proof. discriminate. Qed.

Lemma capital_flow_well_formed : exact_0x_hex 16 (Js.trim "0xABCDEF0123456789").
Proof. exists "ABCDEF0123456789". repeat split. Qed.

Lemma flow_error_iff_trimmed_value_malformed_witness :
  exists added,
    run bare_host (Eco.validateWalletAddresses (JObj flow_only_wallets))
        new_RegistryValidator =
    (Returns tt, {| this_errors := [] ++ added; requests := [] |}) /\
    filter is_flow_error added = [].
Proof.
  destruct (@flow_error_iff_trimmed_value_malformed
              bare_host new_RegistryValidator flow_only_wallets
              "0xABCDEF0123456789" eq_refl capital_flow_not_empty)
    as ((added & Hrun & _ & Hnone) & _).
  exists added. split; [exact Hrun|].
  apply Hnone, capital_flow_well_formed.
Defined.

(** The two revisions differ on a [wallets] value without usable addresses
    (neither [evm] nor [flow] is a string that is not empty): the first
    revision appends nothing, the second appends the two errors for the
    missing addresses, [evm] first. *)
Theorem wallets_optional_or_required
        (h : Host) (st : RegistryValidator) (wallets : JsVal) :
  truthy wallets = true ->
  ~ nonempty_string (prop wallets "evm") ->
  ~ nonempty_string (prop wallets "flow") ->
  run h (Eco.validateWalletAddresses wallets) st = (Returns tt, st) /\
  run h (Strict.validateWalletAddresses wallets) st =
  (Returns tt,
   {| this_errors :=
        this_errors st
        ++ ["Missing or invalid 'evm' wallet address";
            "Missing or invalid 'flow' wallet address"];
      requests := requests st |}).
Proof.
  intros Hw He Hf.
  assert (Hm : forall k, member wallets k = Ret (prop wallets k))
    by (intros k; destruct wallets; try discriminate Hw; reflexivity).
  assert (Be : bad_name (prop wallets "evm") = true).
  { destruct (bad_name (prop wallets "evm")) eqn:E; [reflexivity|].
    now apply bad_name_false in E. }
  assert (Bf : bad_name (prop wallets "flow") = true).
  { destruct (bad_name (prop wallets "flow")) eqn:E; [reflexivity|].
    now apply bad_name_false in E. }
  split.
  - unfold Eco.validateWalletAddresses. rewrite !Hm.
    cbn [Monad.bind Monad_Prog bind].
    rewrite !guard_is_not_bad_name, Be, Bf. reflexivity.
  - unfold Strict.validateWalletAddresses. rewrite !Hm.
    cbn [Monad.bind Monad_Prog bind].
    unfold bad_name in Be, Bf. rewrite Be, Bf. simpl.
    now rewrite <- app_assoc.
Qed.

Lemma wallets_optional_or_required_witness :
  run bare_host (Eco.validateWalletAddresses (JObj [("evm", JNum 5)]))
      new_RegistryValidator = (Returns tt, new_RegistryValidator) /\
  run bare_host (Strict.validateWalletAddresses (JObj [("evm", JNum 5)]))
      new_RegistryValidator =
  (Returns tt,
   {| this_errors := ["Missing or invalid 'evm' wallet address";
                      "Missing or invalid 'flow' wallet address"];
      requests := [] |}).
Proof.
  apply (@wallets_optional_or_required bare_host new_RegistryValidator
           (JObj [("evm", JNum 5)]) eq_refl).
  - intros (s & H & _). discriminate H.
  - intros (s & H & _). discriminate H.
Defined.

(** ** The owner and the name of a well-formed URL *)

Lemma span_all (f : ascii -> bool) (a : string) :
  Js.all_chars f a = true -> Js.span f a = (a, EmptyString).
Proof.
  induction a as [|c a IH]; simpl; [reflexivity|].
  intros H. apply andb_true_iff in H as [Hc Ha]. now rewrite Hc, (IH Ha).
Qed.

Lemma github_match_whole (owner repo : string) :
  owner <> EmptyString -> repo <> EmptyString ->
  slash_free owner -> slash_free repo ->
  github_match ("https://github.com/" ++ owner ++ "/" ++ repo) =
  Some (owner, repo).
Proof.
  intros Ho Hr So Sr. apply github_match_here. unfold match_here.
  rewrite afterPrefix_app, (span_app _ _ _ So). simpl.
  rewrite append_empty_r, (span_all _ _ Sr).
  destruct owner as [|c0 owner]; [contradiction|].
  destruct repo as [|c1 repo]; [contradiction|].
  reflexivity.
Qed.

Lemma length_append (a b : string) :
  String.length (a ++ b) = String.length a + String.length b.
Proof. induction a as [|c a IH]; simpl; congruence. Qed.

Lemma strip_dot_git_suffix (name : string) :
  strip_dot_git (name ++ ".git") = name.
Proof.
  induction name as [|c name IH]; [reflexivity|].
  cbn [append strip_dot_git].
  replace (String c (name ++ ".git") =? ".git") with false.
  - now rewrite IH.
  - symmetry. apply String.eqb_neq. intros H.
    apply (f_equal String.length) in H. simpl in H.
    rewrite length_append in H. simpl in H. lia.
Qed.

Lemma strip_dot_git_unchanged (name : string) :
  (forall stem, name <> stem ++ ".git") -> strip_dot_git name = name.
Proof.
  induction name as [|c name IH]; intros H; [reflexivity|].
  cbn [strip_dot_git].
  destruct (String c name =? ".git") eqn:E.
  - apply String.eqb_eq in E. exfalso. apply (H EmptyString). exact E.
  - f_equal. apply IH. intros stem Hs. apply (H (String c stem)).
    simpl. now rewrite Hs.
Qed.

Lemma requests_of_match (h : Host) (st : RegistryValidator)
      (url owner repo : string) :
  github_match url = Some (owner, repo) ->
  requests (snd (run h (validateRepositoryUrls_body (JStr url)) st)) =
  (requests st ++ [ReposGet (Js.trim owner) (Js.trim (strip_dot_git repo))])%list.
Proof.
  intros Hm.
  assert (Hc : contains_github_url url)
    by (apply github_match_iff; eauto).
  now rewrite (urls_body_match h st url (contains_not_blank Hc) Hm).
Qed.

(** A final [.git] is tolerated and stripped: for an owner and a name
    without a slash, the URL [https://github.com/<owner>/<name>.git] sends
    the lookup for the owner and the name, both trimmed; and so does the URL
    without the [.git], when the name is not empty and does not itself end
    in [.git]. *)
Theorem git_suffix_tolerated
        (h : Host) (st : RegistryValidator) (owner name : string) :
  owner <> EmptyString -> slash_free owner -> slash_free name ->
  let lookup_sent := (requests st
                      ++ [ReposGet (Js.trim owner) (Js.trim name)])%list in
  requests
    (snd (run h (validateRepositoryUrls_body
                   (JStr ("https://github.com/" ++ owner ++ "/" ++ name ++ ".git")))
              st)) = lookup_sent /\
  (name <> EmptyString -> (forall stem, name <> stem ++ ".git") ->
   requests
     (snd (run h (validateRepositoryUrls_body
                    (JStr ("https://github.com/" ++ owner ++ "/" ++ name)))
               st)) = lookup_sent).
Proof.
  intros Ho So Sn lookup_sent. split.
  - assert (Hm : github_match
                   ("https://github.com/" ++ owner ++ "/" ++ name ++ ".git") =
                 Some (owner, name ++ ".git")).
    { apply github_match_whole; auto.
      - destruct name; discriminate.
      - unfold slash_free. rewrite all_chars_app. unfold slash_free in Sn.
        now rewrite Sn. }
    rewrite (requests_of_match h st _ Hm), strip_dot_git_suffix.
    reflexivity.
  - intros Hn Hstem.
    rewrite (requests_of_match h st _ (github_match_whole Ho Hn So Sn)),
      (strip_dot_git_unchanged Hstem).
    reflexivity.
Qed.

Lemma git_suffix_tolerated_witness :
  requests
    (snd (run bare_host
              (validateRepositoryUrls_body
                 (JStr "https://github.com/acme/widget.git"))
              new_RegistryValidator)) = [ReposGet "acme" "widget"].
Proof.
  refine (proj1 (@git_suffix_tolerated bare_host new_RegistryValidator
                   "acme" "widget" _ eq_refl eq_refl)).
  discriminate.
Defined.

(** ** The probes of the ecosystem check *)

Lemma run_swallow (h : Host) (p : Prog Completion) (st : RegistryValidator) :
  run h (swallow p) st =
  match run h p st with
  | (Returns c, st') => (Returns c, st')
  | (Throws _, st') => (Returns Normal, st')
  end.
Proof.
  unfold swallow. rewrite run_try_catch.
  now destruct (run h p st) as [[c|e] st'].
Qed.

Lemma run_and_then (h : Host) (p q : Prog Completion) (st : RegistryValidator) :
  run h (and_then p q) st =
  match run h p st with
  | (Returns Normal, st') => run h q st'
  | (Returns c, st') => (Returns c, st')
  | (Throws e, st') => (Throws e, st')
  end.
Proof.
  unfold and_then. rewrite run_bind.
  destruct (run h p st) as [[c|e] st']; [|reflexivity].
  now destruct c.
Qed.

Lemma run_probe_readme (h : Host) (st : RegistryValidator)
      (owner name : string) :
  let q := content_request owner name "README.md" in
  run h (probe_readme owner (strip_dot_git name)) st =
  (Returns (if readme_confirms (octokit h (requests st) q)
            then Return else Normal),
   with_request st q).
Proof.
  intros q. unfold probe_readme. rewrite run_swallow, run_bind.
  cbn [await run]. fold (content_request owner name "README.md"). fold q.
  destruct (octokit h (requests st) q) as [e|status data]; [reflexivity|].
  cbn [run content_of readme_confirms].
  destruct (status =? 200)%Z; [|now destruct data].
  destruct data; try reflexivity. cbn [andb].
  now destruct (Js.includes (Js.toLowerCase text) "on flow"
                || Js.includes (Js.toLowerCase text) "flow blockchain").
Qed.

Lemma run_probe_package_json (h : Host) (st : RegistryValidator)
      (owner name : string) :
  let q := content_request owner name "package.json" in
  run h (probe_package_json owner (strip_dot_git name)) st =
  (Returns (if package_confirms h (octokit h (requests st) q)
            then Continue else Normal),
   with_request st q).
Proof.
  intros q. unfold probe_package_json. rewrite run_swallow, run_bind.
  cbn [await run]. fold (content_request owner name "package.json"). fold q.
  destruct (octokit h (requests st) q) as [e|status data]; [reflexivity|].
  cbn [run content_of package_confirms].
  destruct (status =? 200)%Z; [|now destruct data].
  destruct data; try reflexivity. cbn [andb run].
  destruct (JSON_parse h text) as [packageJson|]; [|reflexivity].
  unfold manifest_confirms.
  destruct packageJson; cbn [member prop run Monad.bind Monad_Prog bind];
    try reflexivity;
    match goal with
    | |- context [if ?c then _ else _] => now destruct c
    end.
Qed.

Lemma run_probe_go_mod (h : Host) (st : RegistryValidator)
      (owner name : string) :
  let q := content_request owner name "go.mod" in
  run h (probe_go_mod owner (strip_dot_git name)) st =
  (Returns (if go_mod_confirms (octokit h (requests st) q)
            then Continue else Normal),
   with_request st q).
Proof.
  intros q. unfold probe_go_mod. rewrite run_swallow, run_bind.
  cbn [await run]. fold (content_request owner name "go.mod"). fold q.
  destruct (octokit h (requests st) q) as [e|status data]; [reflexivity|].
  cbn [run content_of go_mod_confirms].
  destruct (status =? 200)%Z; [|now destruct data].
  destruct data; try reflexivity. cbn [andb].
  now destruct (Js.includes text "github.com/onflow/flow-go-sdk"
                || Js.includes text "github.com/onflow/flow-go").
Qed.

Lemma run_probe_solidity_rejected (h : Host) (st : RegistryValidator)
      (owner name : string) (e : Exn) :
  let q := content_request owner name EmptyString in
  octokit h (requests st) q = Rejected e ->
  run h (probe_solidity_config owner (strip_dot_git name)) st =
  (Returns Normal, with_request st q).
Proof.
  intros q Hq. unfold probe_solidity_config. rewrite run_swallow, run_bind.
  cbn [await run]. fold (content_request owner name EmptyString). fold q.
  now rewrite Hq.
Qed.

(** The iteration of the ecosystem check for a string in which the pattern
    finds an owner and a name: the four probes in sequence, and the error if
    none of them ends the search. *)
Lemma run_eco_body_match (h : Host) (st : RegistryValidator)
      (url owner name : string) :
  github_match url = Some (owner, name) ->
  run h (validateFlowEcosystemRequirements_body (JStr url)) st =
  run h (swallow
           (and_then (probe_readme owner (strip_dot_git name))
           (and_then (probe_package_json owner (strip_dot_git name))
           (and_then (probe_go_mod owner (strip_dot_git name))
           (and_then (probe_solidity_config owner (strip_dot_git name))
                     (Monad.bind (push (requirements_message url))
                                 (fun _ => Ret Normal))))))) st.
Proof.
  intros Hm. unfold validateFlowEcosystemRequirements_body, url_match.
  cbn [Monad.bind Monad.ret Monad_Prog bind]. rewrite Hm. reflexivity.
Qed.

(** ** The ecosystem check, URL after URL *)

Lemma eco_body_never_throws (h : Host) (st : RegistryValidator) (url : JsVal) :
  exists c st', run h (validateFlowEcosystemRequirements_body url) st =
                (Returns c, st').
Proof.
  unfold validateFlowEcosystemRequirements_body. rewrite run_swallow.
  destruct (run h _ st) as [[c|e] st']; eauto.
Qed.

(** The ecosystem check never throws, whatever the list holds and whatever
    the host replies; and an element that is not a string is passed over
    with no request and no error. *)
Theorem ecosystem_check_never_throws
        (h : Host) (st : RegistryValidator) :
  (forall urls : list JsVal,
     exists st', run h (validateFlowEcosystemRequirements urls) st =
                 (Returns tt, st')) /\
  (forall (v : JsVal) (rest : list JsVal),
     typeof_string v = false ->
     run h (validateFlowEcosystemRequirements (v :: rest)) st =
     run h (validateFlowEcosystemRequirements rest) st).
Proof.
  split.
  - intros urls. revert st. induction urls as [|u rest IH]; intros st.
    + eexists. reflexivity.
    + unfold validateFlowEcosystemRequirements in *. rewrite run_loop_cons.
      destruct (eco_body_never_throws h st u) as (c & st' & ->).
      destruct c; eauto.
  - intros v rest Hv. unfold validateFlowEcosystemRequirements.
    rewrite run_loop_cons.
    destruct v; try discriminate Hv; reflexivity.
Qed.

Lemma ecosystem_check_never_throws_witness :
  run acme_host
      (validateFlowEcosystemRequirements [JNum 7; JNull; JStr widget_url])
      new_RegistryValidator =
  run acme_host (validateFlowEcosystemRequirements [JStr widget_url])
      new_RegistryValidator.
Proof.
  destruct (ecosystem_check_never_throws acme_host new_RegistryValidator)
    as [_ Hskip].
  rewrite (Hskip (JNum 7) _ eq_refl). exact (Hskip JNull _ eq_refl).
Defined.

Lemma run_probe_readme_rejected (h : Host) (st : RegistryValidator)
      (owner name : string) (e : Exn) :
  octokit h (requests st) (content_request owner name "README.md") =
  Rejected e ->
  run h (probe_readme owner (strip_dot_git name)) st =
  (Returns Normal, with_request st (content_request owner name "README.md")).
Proof. intros H. now rewrite run_probe_readme, H. Qed.

Lemma run_probe_package_json_rejected (h : Host) (st : RegistryValidator)
      (owner name : string) (e : Exn) :
  octokit h (requests st) (content_request owner name "package.json") =
  Rejected e ->
  run h (probe_package_json owner (strip_dot_git name)) st =
  (Returns Normal, with_request st (content_request owner name "package.json")).
Proof. intros H. now rewrite run_probe_package_json, H. Qed.

Lemma run_probe_go_mod_rejected (h : Host) (st : RegistryValidator)
      (owner name : string) (e : Exn) :
  octokit h (requests st) (content_request owner name "go.mod") = Rejected e ->
  run h (probe_go_mod owner (strip_dot_git name)) st =
  (Returns Normal, with_request st (content_request owner name "go.mod")).
Proof. intros H. now rewrite run_probe_go_mod, H. Qed.

(** The tail of an iteration: the listing is rejected, the error is
    appended. *)
Lemma run_listing_rejected_then_error (h : Host) (st : RegistryValidator)
      (url owner name : string) (e : Exn) :
  octokit h (requests st) (content_request owner name EmptyString) =
  Rejected e ->
  run h (and_then (probe_solidity_config owner (strip_dot_git name))
                  (Monad.bind (push (requirements_message url))
                              (fun _ => Ret Normal))) st =
  (Returns Normal,
   with_error (with_request st (content_request owner name EmptyString))
              (requirements_message url)).
Proof.
  intros H. rewrite run_and_then.
  now rewrite (@run_probe_solidity_rejected h st owner name e H).
Qed.

Lemma eco_body_all_rejected (h : Host) (st : RegistryValidator)
      (url owner name : string) :
  contents_rejected h ->
  github_match url = Some (owner, name) ->
  run h (validateFlowEcosystemRequirements_body (JStr url)) st =
  (Returns Normal,
   {| this_errors := this_errors st ++ [requirements_message url];
      requests := requests st ++ four_probes url |}).
Proof.
  intros Hrej Hm. rewrite (run_eco_body_match h st url Hm), run_swallow.
  rewrite run_and_then.
  destruct (Hrej (requests st) (Js.trim owner) (Js.trim (strip_dot_git name))
                 "README.md") as [e1 H1].
  rewrite (@run_probe_readme_rejected h st owner name e1 H1).
  set (s1 := with_request st _).
  rewrite run_and_then.
  destruct (Hrej (requests s1) (Js.trim owner) (Js.trim (strip_dot_git name))
                 "package.json") as [e2 H2].
  rewrite (@run_probe_package_json_rejected h s1 owner name e2 H2).
  set (s2 := with_request s1 _).
  rewrite run_and_then.
  destruct (Hrej (requests s2) (Js.trim owner) (Js.trim (strip_dot_git name))
                 "go.mod") as [e3 H3].
  rewrite (@run_probe_go_mod_rejected h s2 owner name e3 H3).
  set (s3 := with_request s2 _).
  destruct (Hrej (requests s3) (Js.trim owner) (Js.trim (strip_dot_git name))
                 EmptyString) as [e4 H4].
  rewrite (@run_listing_rejected_then_error h s3 url owner name e4 H4).
  unfold four_probes. rewrite Hm. subst s1 s2 s3.
  unfold with_error, with_request. simpl. now rewrite <- !app_assoc.
Qed.

(** When no content can be fetched, the failures are swallowed and only the
    exhaustion of the probes is reported: over a list of strings that each
    hold a GitHub URL, the check appends exactly one requirements error for
    each string, in order, after sending its four probes in the order
    [README.md], [package.json], [go.mod], root listing. *)
Theorem unreachable_contents_one_error_each
        (h : Host) (st : RegistryValidator) (urls : list string) :
  contents_rejected h ->
  Forall contains_github_url urls ->
  run h (validateFlowEcosystemRequirements (map JStr urls)) st =
  (Returns tt,
   {| this_errors := this_errors st ++ map requirements_message urls;
      requests := requests st ++ flat_map four_probes urls |}).
Proof.
  intros Hrej Hall. revert st.
  induction Hall as [|url rest Hurl Hrest IH]; intros st.
  - simpl. rewrite !app_nil_r. now destruct st.
  - apply github_match_iff in Hurl as [[owner name] Hm].
    unfold validateFlowEcosystemRequirements in *. cbn [map].
    rewrite run_loop_cons, (@eco_body_all_rejected h st url owner name Hrej Hm), IH.
    cbn [this_errors requests map flat_map].
    now rewrite <- !app_assoc.
Qed.

Lemma bare_host_contents_rejected : contents_rejected bare_host.
Proof. intros before owner repo path. eexists. reflexivity. Qed.

Lemma unreachable_contents_one_error_each_witness :
  run bare_host
      (validateFlowEcosystemRequirements (map JStr [widget_url; tree_url]))
      new_RegistryValidator =
  (Returns tt,
   {| this_errors := [requirements_message widget_url;
                      requirements_message tree_url];
      requests := four_probes widget_url ++ four_probes tree_url |}).
Proof.
  refine (@unreachable_contents_one_error_each
            bare_host new_RegistryValidator [widget_url; tree_url]
            bare_host_contents_rejected _).
  repeat constructor; apply github_match_iff; eexists; reflexivity.
Defined.

Lemma package_confirms_dependencies (h : Host) (text : string)
      (packageJson : JsVal) (deps : list (string * JsVal)) :
  JSON_parse h text = Some packageJson ->
  prop packageJson "dependencies" = JObj deps ->
  truthy (lookup "@onflow/fcl" deps) || truthy (lookup "@onflow/kit" deps) = true ->
  package_confirms h (Fulfilled 200 (FileData text)) = true.
Proof.
  intros HJ Hd Hk. cbn [package_confirms]. rewrite HJ.
  unfold manifest_confirms. rewrite Hd. cbn [prop truthy].
  simpl Z.eqb. cbn [andb]. rewrite <- !orb_assoc in *.
  rewrite orb_assoc, Hk. reflexivity.
Qed.

Lemma package_declines_without_dependencies (h : Host) (text : string)
      (packageJson : JsVal) :
  JSON_parse h text = Some packageJson ->
  truthy (prop packageJson "dependencies") = false ->
  package_confirms h (Fulfilled 200 (FileData text)) = false.
Proof.
  intros HJ Hd. cbn [package_confirms]. rewrite HJ.
  unfold manifest_confirms. rewrite Hd. reflexivity.
Qed.

(** A manifest with [@onflow/fcl] or [@onflow/kit] among its
    [dependencies] satisfies the requirement at the second probe: after a
    README that does not confirm, the iteration ends with two requests sent
    and no error, and the check goes on with the next URL. *)
Theorem manifest_dependency_satisfies
        (h : Host) (st : RegistryValidator) (owner name text : string)
        (packageJson : JsVal) (deps : list (string * JsVal))
        (rest : list JsVal) :
  owner <> EmptyString -> name <> EmptyString ->
  slash_free owner -> slash_free name ->
  let url := "https://github.com/" ++ owner ++ "/" ++ name in
  let q1 := content_request owner name "README.md" in
  let q2 := content_request owner name "package.json" in
  readme_confirms (octokit h (requests st) q1) = false ->
  octokit h (requests (with_request st q1)) q2 = Fulfilled 200 (FileData text) ->
  JSON_parse h text = Some packageJson ->
  prop packageJson "dependencies" = JObj deps ->
  truthy (lookup "@onflow/fcl" deps) || truthy (lookup "@onflow/kit" deps) = true ->
  run h (validateFlowEcosystemRequirements (JStr url :: rest)) st =
  run h (validateFlowEcosystemRequirements rest)
      (with_request (with_request st q1) q2).
Proof.
  intros Ho Hn So Sn url q1 q2 H1 H2 HJ Hd Hk.
  pose proof (github_match_whole Ho Hn So Sn) as Hm.
  unfold validateFlowEcosystemRequirements.
  rewrite run_loop_cons, (run_eco_body_match h st url Hm), run_swallow.
  rewrite run_and_then, run_probe_readme. fold q1. rewrite H1.
  rewrite run_and_then, run_probe_package_json. fold q2. rewrite H2.
  now rewrite (package_confirms_dependencies h text HJ Hd Hk).
Qed.

Lemma manifest_dependency_satisfies_witness :
  run (manifest_host kit_manifest)
      (validateFlowEcosystemRequirements [JStr widget_url; JStr not_a_url])
      new_RegistryValidator =
  (Returns tt,
   {| this_errors := [];
      requests := [ReposGetContent "acme" "widget" "README.md";
                   ReposGetContent "acme" "widget" "package.json"] |}).
Proof.
  refine (eq_trans
            (@manifest_dependency_satisfies
               (manifest_host kit_manifest) new_RegistryValidator
               "acme" "widget" "{...}" kit_manifest
               [("@onflow/kit", JStr "^0.1.0")] [JStr not_a_url]
               _ _ eq_refl eq_refl eq_refl eq_refl eq_refl eq_refl eq_refl) _);
    [discriminate|discriminate|reflexivity].
Defined.

(** The second probe looks at [devDependencies] only when the manifest has
    [dependencies]: a manifest whose [dependencies] are missing or falsy
    does not satisfy the requirement, whatever its [devDependencies] hold.
    With no other probe confirming and the listing rejected, the iteration
    appends the requirements error after its four requests. *)
Theorem dev_dependencies_alone_do_not_satisfy
        (h : Host) (st : RegistryValidator) (owner name text : string)
        (packageJson : JsVal) (e : Exn) (rest : list JsVal) :
  owner <> EmptyString -> name <> EmptyString ->
  slash_free owner -> slash_free name ->
  let url := "https://github.com/" ++ owner ++ "/" ++ name in
  let q1 := content_request owner name "README.md" in
  let q2 := content_request owner name "package.json" in
  let q3 := content_request owner name "go.mod" in
  let q4 := content_request owner name EmptyString in
  let st1 := with_request st q1 in
  let st2 := with_request st1 q2 in
  let st3 := with_request st2 q3 in
  readme_confirms (octokit h (requests st) q1) = false ->
  octokit h (requests st1) q2 = Fulfilled 200 (FileData text) ->
  JSON_parse h text = Some packageJson ->
  truthy (prop packageJson "dependencies") = false ->
  go_mod_confirms (octokit h (requests st2) q3) = false ->
  octokit h (requests st3) q4 = Rejected e ->
  run h (validateFlowEcosystemRequirements (JStr url :: rest)) st =
  run h (validateFlowEcosystemRequirements rest)
      (with_error (with_request st3 q4) (requirements_message url)).
Proof.
  intros Ho Hn So Sn url q1 q2 q3 q4 st1 st2 st3 H1 H2 HJ Hd H3 H4.
  pose proof (github_match_whole Ho Hn So Sn) as Hm.
  unfold validateFlowEcosystemRequirements.
  rewrite run_loop_cons, (run_eco_body_match h st url Hm), run_swallow.
  rewrite run_and_then, run_probe_readme. fold q1. rewrite H1. fold st1.
  rewrite run_and_then, run_probe_package_json. fold q2. rewrite H2.
  rewrite (package_declines_without_dependencies h text HJ Hd). fold st2.
  rewrite run_and_then, run_probe_go_mod. fold q3. rewrite H3. fold st3.
  now rewrite (@run_listing_rejected_then_error h st3 url owner name e H4).
Qed.

Lemma dev_dependencies_alone_do_not_satisfy_witness :
  run (manifest_host dev_only_manifest)
      (validateFlowEcosystemRequirements [JStr widget_url])
      new_RegistryValidator =
  (Returns tt,
   {| this_errors := [requirements_message widget_url];
      requests := four_probes widget_url |}).
Proof.
  refine (eq_trans
            (@dev_dependencies_alone_do_not_satisfy
               (manifest_host dev_only_manifest) new_RegistryValidator
               "acme" "widget" "{...}" dev_only_manifest
               (Error "HttpError: Not Found") []
               _ _ eq_refl eq_refl eq_refl eq_refl eq_refl eq_refl eq_refl
               eq_refl) _);
    [discriminate|discriminate|reflexivity].
Defined.

(** A [go.mod] that names [github.com/onflow/flow-go] (the SDK path
    [github.com/onflow/flow-go-sdk] included) satisfies the requirement at
    the third probe: after a README and a manifest that do not confirm, the
    iteration ends with three requests sent and no error, and the check goes
    on with the next URL. *)
Theorem go_module_satisfies
        (h : Host) (st : RegistryValidator) (owner name text : string)
        (rest : list JsVal) :
  owner <> EmptyString -> name <> EmptyString ->
  slash_free owner -> slash_free name ->
  let url := "https://github.com/" ++ owner ++ "/" ++ name in
  let q1 := content_request owner name "README.md" in
  let q2 := content_request owner name "package.json" in
  let q3 := content_request owner name "go.mod" in
  let st1 := with_request st q1 in
  let st2 := with_request st1 q2 in
  readme_confirms (octokit h (requests st) q1) = false ->
  package_confirms h (octokit h (requests st1) q2) = false ->
  octokit h (requests st2) q3 = Fulfilled 200 (FileData text) ->
  Js.includes text "github.com/onflow/flow-go" = true ->
  run h (validateFlowEcosystemRequirements (JStr url :: rest)) st =
  run h (validateFlowEcosystemRequirements rest) (with_request st2 q3).
Proof.
  intros Ho Hn So Sn url q1 q2 q3 st1 st2 H1 H2 H3 Hgo.
  pose proof (github_match_whole Ho Hn So Sn) as Hm.
  unfold validateFlowEcosystemRequirements.
  rewrite run_loop_cons, (run_eco_body_match h st url Hm), run_swallow.
  rewrite run_and_then, run_probe_readme. fold q1. rewrite H1. fold st1.
  rewrite run_and_then, run_probe_package_json. fold q2. rewrite H2.
  fold st2.
  rewrite run_and_then, run_probe_go_mod. fold q3. rewrite H3.
  cbn [go_mod_confirms]. rewrite Hgo, orb_true_r. reflexivity.
Qed.

Lemma go_module_satisfies_witness :
  run go_mod_host
      (validateFlowEcosystemRequirements [JStr widget_url; JStr not_a_url])
      new_RegistryValidator =
  (Returns tt,
   {| this_errors := [];
      requests := [ReposGetContent "acme" "widget" "README.md";
                   ReposGetContent "acme" "widget" "package.json";
                   ReposGetContent "acme" "widget" "go.mod"] |}).
Proof.
  refine (eq_trans
            (@go_module_satisfies
               go_mod_host new_RegistryValidator "acme" "widget"
               "require github.com/onflow/flow-go v0.33.0" [JStr not_a_url]
               _ _ eq_refl eq_refl eq_refl eq_refl eq_refl eq_refl) _);
    [discriminate|discriminate|reflexivity].
Defined.

(** ** Entries that pass *)

Lemma github_handles_all_exist (h : Host) (st : RegistryValidator)
      (handles : list string) :
  users_exist h ->
  Forall (fun s => blank s = false) handles ->
  run h (validateGitHubHandles (map JStr handles)) st =
  (Returns tt,
   {| this_errors := this_errors st;
      requests :=
        requests st ++ map (fun s => UsersGetByUsername (Js.trim s)) handles |}).
Proof.
  intros Hex Hall. revert st.
  induction Hall as [|s rest Hs Hrest IH]; intros st.
  - simpl. rewrite app_nil_r. now destruct st.
  - unfold validateGitHubHandles in *. cbn [map]. rewrite run_loop_cons.
    rewrite (github_body_lookup h st s Hs).
    destruct (Hex (requests st) (Js.trim s)) as [data ->].
    cbn [handle_errors]. simpl Z.eqb. cbv iota.
    rewrite IH. cbn [this_errors requests].
    now rewrite app_nil_r, <- app_assoc.
Qed.

Lemma repository_urls_all_exist (h : Host) (st : RegistryValidator)
      (urls : list string) :
  repos_exist h ->
  Forall contains_github_url urls ->
  run h (validateRepositoryUrls (map JStr urls)) st =
  (Returns tt,
   {| this_errors := this_errors st;
      requests := requests st ++ flat_map repo_lookup urls |}).
Proof.
  intros Hex Hall. revert st.
  induction Hall as [|url rest Hurl Hrest IH]; intros st.
  - simpl. rewrite app_nil_r. now destruct st.
  - pose proof (contains_not_blank Hurl) as Hb.
    apply github_match_iff in Hurl as [[owner repo] Hm].
    unfold validateRepositoryUrls in *. cbn [map]. rewrite run_loop_cons.
    rewrite (urls_body_match h st url Hb Hm).
    destruct (Hex (requests st) (Js.trim owner) (Js.trim (strip_dot_git repo)))
      as [data ->].
    cbn [lookup_errors]. simpl Z.eqb. cbv iota.
    rewrite IH. cbn [this_errors requests flat_map].
    unfold repo_lookup at 2. rewrite Hm.
    now rewrite app_nil_r, <- app_assoc.
Qed.

Lemma trim_of_empty_is_empty (s : string) :
  Js.trim s <> EmptyString -> s <> EmptyString.
Proof. intros H ->. now apply H. Qed.

Lemma exact_not_empty (n : nat) (s : string) :
  exact_0x_hex n (Js.trim s) -> s <> EmptyString.
Proof.
  intros (digits & H & _). apply trim_of_empty_is_empty. rewrite H.
  discriminate.
Qed.

Lemma wallets_well_formed_run (h : Host) (st : RegistryValidator)
      (fields : list (string * JsVal)) (evm flow : string) :
  lookup "evm" fields = JStr evm -> exact_0x_hex 40 (Js.trim evm) ->
  lookup "flow" fields = JStr flow -> exact_0x_hex 16 (Js.trim flow) ->
  run h (Eco.validateWalletAddresses (JObj fields)) st = (Returns tt, st) /\
  run h (Strict.validateWalletAddresses (JObj fields)) st = (Returns tt, st).
Proof.
  intros He Xe Hf Xf.
  pose proof (truthy_nonempty (exact_not_empty Xe)) as Te.
  pose proof (truthy_nonempty (exact_not_empty Xf)) as Tf.
  apply bad_evm_address_iff in Xe. apply bad_flow_address_iff in Xf.
  split.
  - unfold Eco.validateWalletAddresses.
    cbn [member prop Monad.bind Monad_Prog bind]. rewrite He, Hf, Te, Tf.
    cbn [typeof_string andb when str]. cbv zeta. rewrite Xe, Xf.
    reflexivity.
  - unfold Strict.validateWalletAddresses.
    cbn [member prop Monad.bind Monad_Prog bind]. rewrite He, Hf, Te, Tf.
    cbn [typeof_string negb orb when str]. cbv zeta. rewrite Xe, Xf.
    reflexivity.
Qed.

Lemma map_JStr_bad_array (l : list string) :
  l <> [] -> bad_array (JArr (map JStr l)) = false.
Proof. destruct l; [contradiction|reflexivity]. Qed.

(** The second revision accepts a well-formed entry when every user and
    repository exists: on a new instance the run returns [isValid = true]
    with no error, after one lookup for each handle and then one for each
    repository, in order. *)
Theorem well_formed_entry_accepted
        (h : Host) (items : list JsVal) (fields : list (string * JsVal))
        (handles urls : list string) :
  users_exist h -> repos_exist h ->
  last_object_typed items = Some (JObj fields) ->
  well_formed_entry fields handles urls ->
  run h (Strict.validateRegistry (inr (JArr items))) new_RegistryValidator =
  (Returns {| isValid := true; errors := [] |},
   {| this_errors := [];
      requests :=
        map (fun s => UsersGetByUsername (Js.trim s)) handles
        ++ flat_map repo_lookup urls |}).
Proof.
  intros Hu Hr Hlast
         ((name & Hname & Hne) & Hg & Hgne & Hgall & Hrp & Hrne & Hrall &
          (ws & evm & flow & Hw & He & Xe & Hf & Xf)).
  assert (Bn : bad_name (JStr name) = false)
    by (apply bad_name_false; eexists; eauto).
  unfold Strict.validateRegistry.
  rewrite run_try_catch_bind. simpl load. cbn [run].
  rewrite run_try_catch_bind. simpl filter_entries.
  cbn [run Monad.ret Monad_Prog].
  generalize (entries_end_with_last items). rewrite Hlast.
  intros (front & ->).
  rewrite length_snoc_nonzero, last_index. cbv zeta.
  rewrite run_try_catch_bind,
    (strict_required_run h new_RegistryValidator (JObj fields) eq_refl).
  cbn [prop]. rewrite Hname, Hg, Hrp, Hw, Bn.
  rewrite (map_JStr_bad_array Hgne), (map_JStr_bad_array Hrne).
  cbn [object_typed negb app this_errors requests new_RegistryValidator].
  rewrite run_try_catch_bind. cbn [member prop run]. rewrite Hg.
  cbn [truthy isArray andb when elements].
  rewrite run_try_catch_bind, (github_handles_all_exist _ Hu Hgall).
  cbn [this_errors requests app].
  rewrite run_try_catch_bind. cbn [member prop run]. rewrite Hrp.
  cbn [truthy isArray andb when elements].
  rewrite run_try_catch_bind, (repository_urls_all_exist _ Hr Hrall).
  cbn [this_errors requests].
  rewrite run_try_catch_bind. cbn [member prop run]. rewrite Hw.
  cbn [truthy when].
  rewrite run_try_catch_bind,
    (proj2 (wallets_well_formed_run h _ ws He Xe Hf Xf)).
  rewrite run_try_catch, run_result_by_count. reflexivity.
Qed.

Lemma filter_blank_none (l : list string) :
  Forall (fun s => blank s = false) l -> filter blank l = [].
Proof.
  induction 1 as [|s rest Hs Hrest IH]; [reflexivity|].
  simpl. now rewrite Hs.
Qed.

(** The first revision accepts a well-formed entry, with no [x] or with X
    handles that are not blank, when every user and repository exists and
    the README of the first repository has the marker: on a new instance
    the run returns [isValid = true] with no error, after one lookup for
    each handle, one for each repository, and that one README. *)
Theorem well_formed_entry_accepted_with_readme
        (h : Host) (items : list JsVal) (fields : list (string * JsVal))
        (handles urls xs : list string) :
  users_exist h -> repos_exist h -> readmes_confirm h ->
  last_object_typed items = Some (JObj fields) ->
  well_formed_entry fields handles urls ->
  (lookup "x" fields = JUndefined /\ xs = [] \/
   lookup "x" fields = JArr (map JStr xs) /\
   Forall (fun s => blank s = false) xs) ->
  run h (Eco.validateRegistry (inr (JArr items))) new_RegistryValidator =
  (Returns {| isValid := true; errors := [] |},
   {| this_errors := [];
      requests :=
        map (fun s => UsersGetByUsername (Js.trim s)) handles
        ++ flat_map repo_lookup urls
        ++ firstn 1 (flat_map four_probes urls) |}).
Proof.
  intros Hu Hr Hreadme Hlast
         ((name & Hname & Hne) & Hg & Hgne & Hgall & Hrp & Hrne & Hrall &
          (ws & evm & flow & Hw & He & Xe & Hf & Xf)) Hx.
  assert (Bn : bad_name (JStr name) = false)
    by (apply bad_name_false; eexists; eauto).
  unfold Eco.validateRegistry.
  rewrite run_try_catch_bind. simpl load. cbn [run].
  rewrite run_try_catch_bind. simpl filter_entries.
  cbn [run Monad.ret Monad_Prog].
  generalize (entries_end_with_last items). rewrite Hlast.
  intros (front & ->).
  rewrite length_snoc_nonzero, last_index. cbv zeta.
  rewrite run_try_catch_bind,
    (eco_required_run h new_RegistryValidator (JObj fields) eq_refl).
  cbn [prop]. rewrite Hname, Hg, Hrp, Bn.
  rewrite (map_JStr_bad_array Hgne), (map_JStr_bad_array Hrne).
  cbn [app this_errors requests new_RegistryValidator].
  rewrite run_try_catch_bind. cbn [member prop run]. rewrite Hg.
  cbn [truthy isArray andb when elements].
  rewrite run_try_catch_bind, (github_handles_all_exist _ Hu Hgall).
  cbn [this_errors requests app].
  rewrite run_try_catch_bind. cbn [member prop run]. rewrite Hrp.
  cbn [truthy isArray andb when elements].
  rewrite run_try_catch_bind, run_bind,
    (repository_urls_all_exist _ Hr Hrall).
  cbn [this_errors requests].
  destruct urls as [|url rest]; [contradiction|].
  pose proof (Forall_inv Hrall) as Hurl.
  apply github_match_iff in Hurl as [[owner repo] Hm].
  unfold validateFlowEcosystemRequirements. cbn [map].
  rewrite run_loop_cons, (run_eco_body_match h _ url Hm), run_swallow,
    run_and_then, run_probe_readme.
  match goal with
  | |- context [readme_confirms (octokit h ?l ?q)] =>
      rewrite (Hreadme l (Js.trim owner) (Js.trim (strip_dot_git repo))
               : readme_confirms (octokit h l q) = true)
  end.
  cbv beta iota.
  rewrite run_try_catch_bind. cbn [member prop run]. rewrite Hw.
  cbn [truthy when].
  rewrite run_try_catch_bind,
    (proj1 (wallets_well_formed_run h _ ws He Xe Hf Xf)).
  rewrite run_try_catch_bind. cbn [member prop run].
  assert (Hreq :
            firstn 1 (flat_map four_probes (url :: rest)) =
            [content_request owner repo "README.md"]).
  { cbn [flat_map]. unfold four_probes at 1. rewrite Hm. reflexivity. }
  rewrite Hreq.
  destruct Hx as [[Hx ->]|[Hx Hxall]]; rewrite Hx.
  - cbn [truthy isArray andb when].
    rewrite run_try_catch_bind. cbn [run Monad.ret Monad_Prog].
    rewrite run_try_catch, run_result_by_count.
    unfold with_request. cbn [this_errors requests].
    now rewrite <- app_assoc.
  - cbn [truthy isArray andb when elements].
    rewrite run_try_catch_bind, x_handles_strings_run,
      (filter_blank_none Hxall).
    rewrite run_try_catch, run_result_by_count.
    unfold with_request. cbn [this_errors requests map app].
    now rewrite <- app_assoc.
Qed.

Lemma bare_host_repos_exist : repos_exist bare_host.
Proof. intros before owner repo. exists OtherData. reflexivity. Qed.

Lemma flow_host_users_exist : users_exist flow_host.
Proof. intros before username. exists OtherData. reflexivity. Qed.

Lemma flow_host_repos_exist : repos_exist flow_host.
Proof. intros before owner repo. exists OtherData. reflexivity. Qed.

Lemma flow_host_readmes_confirm : readmes_confirm flow_host.
Proof. intros before owner repo. reflexivity. Qed.

Lemma widget_fields_well_formed :
  well_formed_entry widget_fields ["alice"] [widget_url].
Proof.
  unfold well_formed_entry. repeat split; try discriminate.
  - exists "Widget team". split; [reflexivity|discriminate].
  - repeat constructor.
  - repeat constructor. apply github_match_iff. eexists. reflexivity.
  - eexists _, _, _. split; [reflexivity|].
    split; [reflexivity|]. split; [|split; [reflexivity|]].
    + exists "0000000000000000000000000000000000000000". repeat split.
    + exists "0000000000000001". repeat split.
Qed.

Lemma well_formed_entry_accepted_witness :
  run bare_host (Strict.validateRegistry (inr (JArr [JObj widget_fields])))
      new_RegistryValidator =
  (Returns {| isValid := true; errors := [] |},
   {| this_errors := [];
      requests := [UsersGetByUsername "alice"; ReposGet "acme" "widget"] |}).
Proof.
  exact (@well_formed_entry_accepted
           bare_host [JObj widget_fields] widget_fields ["alice"] [widget_url]
           bare_host_users_exist bare_host_repos_exist eq_refl
           widget_fields_well_formed).
Defined.

Lemma well_formed_entry_accepted_with_readme_witness :
  run flow_host (Eco.validateRegistry (inr (JArr [JObj widget_fields])))
      new_RegistryValidator =
  (Returns {| isValid := true; errors := [] |},
   {| this_errors := [];
      requests := [UsersGetByUsername "alice"; ReposGet "acme" "widget";
                   ReposGetContent "acme" "widget" "README.md"] |}).
Proof.
  exact (@well_formed_entry_accepted_with_readme
           flow_host [JObj widget_fields] widget_fields ["alice"] [widget_url]
           [] flow_host_users_exist flow_host_repos_exist
           flow_host_readmes_confirm eq_refl widget_fields_well_formed
           (or_introl (conj eq_refl eq_refl))).
Defined.

(** ** [main] *)

Lemma main_cases (v : Loaded -> Prog ValidationResult) :
  (forall h loaded st, sound_result (run h (v loaded) st)) ->
  forall (env : Process) (h : Host) (loaded : Loaded),
    (exit_code (main v env h loaded) = 0%Z <->
     exists r, written (main v env h loaded) = Some r /\ errors r = []) /\
    (exit_code (main v env h loaded) = 0%Z \/
     exit_code (main v env h loaded) = 1%Z).
Proof.
  intros Hs env h loaded. unfold main.
  destruct (negb (truthy _)).
  { simpl. split; [split; [discriminate|intros (r & H & _); discriminate]|auto]. }
  destruct (Hs h loaded new_RegistryValidator) as (r & st' & -> & _ & Hiff).
  destruct (mkdirSync_throws env).
  { simpl. split; [split; [discriminate|intros (r' & H & _); discriminate]|auto]. }
  destruct (writeFileSync_throws env).
  { simpl. split; [split; [discriminate|intros (r' & H & _); discriminate]|auto]. }
  destruct (isValid r) eqn:Hv; simpl.
  - split; [|auto]. split; [|reflexivity].
    intros _. exists r. split; [reflexivity|]. now apply Hiff.
  - split; [|auto]. split; [discriminate|].
    intros (r' & [= <-] & He). apply Hiff in He. congruence.
Qed.

(** [main] exits with 0 exactly when it has written a result without
    errors, and with 1 otherwise: whatever the token, the file system, the
    input and the replies; in both revisions. *)
Theorem main_exits_zero_iff_no_errors
        (env : Process) (h : Host) (loaded : Loaded) :
  ((exit_code (main Eco.validateRegistry env h loaded) = 0%Z <->
    exists r, written (main Eco.validateRegistry env h loaded) = Some r /\
              errors r = []) /\
   (exit_code (main Eco.validateRegistry env h loaded) = 0%Z \/
    exit_code (main Eco.validateRegistry env h loaded) = 1%Z)) /\
  ((exit_code (main Strict.validateRegistry env h loaded) = 0%Z <->
    exists r, written (main Strict.validateRegistry env h loaded) = Some r /\
              errors r = []) /\
   (exit_code (main Strict.validateRegistry env h loaded) = 0%Z \/
    exit_code (main Strict.validateRegistry env h loaded) = 1%Z)).
Proof.
  split; apply main_cases.
  - apply eco_validateRegistry_sound.
  - apply strict_validateRegistry_sound.
Qed.

(** Without a token, unset or empty, [main] exits with 1 before anything
    else happens: no request is sent, nothing is written and nothing is
    printed. *)
Theorem main_without_token_does_nothing
        (v : Loaded -> Prog ValidationResult)
        (env : Process) (h : Host) (loaded : Loaded) :
  GITHUB_TOKEN env = None \/ GITHUB_TOKEN env = Some EmptyString ->
  exit_code (main v env h loaded) = 1%Z /\
  written (main v env h loaded) = None /\
  stdout (main v env h loaded) = [] /\
  sent (main v env h loaded) = [].
Proof.
  intros [H|H]; unfold main; rewrite H; repeat split.
Qed.

Lemma main_without_token_does_nothing_witness :
  exit_code
    (main Eco.validateRegistry
          {| GITHUB_TOKEN := None; mkdirSync_throws := None;
             writeFileSync_throws := None |}
          flow_host (inr (JArr [JObj widget_fields]))) = 1%Z.
Proof.
  exact (proj1 (@main_without_token_does_nothing
                  Eco.validateRegistry
                  {| GITHUB_TOKEN := None; mkdirSync_throws := None;
                     writeFileSync_throws := None |}
                  flow_host (inr (JArr [JObj widget_fields]))
                  (or_introl eq_refl))).
Defined.

(** With a token and a working file system, [main] always writes a result:
    the one [validateRegistry] returns on a new instance, whose method
    never throws; and every error of that result is printed once, in order,
    when there is any. *)
Theorem main_writes_the_result
        (env : Process) (h : Host) (loaded : Loaded) (token : string) :
  GITHUB_TOKEN env = Some token -> token <> EmptyString ->
  mkdirSync_throws env = None -> writeFileSync_throws env = None ->
  (exists r,
     validate_eco h loaded = Returns r /\
     written (main Eco.validateRegistry env h loaded) = Some r /\
     (errors r <> [] ->
      tl (stdout (main Eco.validateRegistry env h loaded)) =
      map (fun error => "  - " ++ error) (errors r))) /\
  (exists r,
     validate_strict h loaded = Returns r /\
     written (main Strict.validateRegistry env h loaded) = Some r /\
     (errors r <> [] ->
      tl (stdout (main Strict.validateRegistry env h loaded)) =
      map (fun error => "  - " ++ error) (errors r))).
Proof.
  intros Ht Hne Hm Hw.
  assert (Htruthy : negb (truthy (JStr token)) = false)
    by (rewrite (truthy_nonempty Hne); reflexivity).
  split.
  - destruct (eco_validateRegistry_sound h loaded new_RegistryValidator)
      as (r & st' & Hrun & _ & Hiff).
    exists r. unfold validate_eco, main. rewrite Ht, Htruthy, Hrun, Hm, Hw.
    split; [reflexivity|].
    destruct (isValid r) eqn:Hv; simpl; split; try reflexivity.
    intros He. exfalso. apply He. now apply Hiff.
  - destruct (strict_validateRegistry_sound h loaded new_RegistryValidator)
      as (r & st' & Hrun & _ & Hiff).
    exists r. unfold validate_strict, main. rewrite Ht, Htruthy, Hrun, Hm, Hw.
    split; [reflexivity|].
    destruct (isValid r) eqn:Hv; simpl; split; try reflexivity.
    intros He. exfalso. apply He. now apply Hiff.
Qed.

Lemma ci_token_not_empty : "ghs_token" <> EmptyString.
Proof. discriminate. Qed.

Lemma main_writes_the_result_witness :
  exists r,
    validate_strict bare_host (inr (JArr [short_evm_entry])) = Returns r /\
    written (main Strict.validateRegistry ci_process bare_host
                  (inr (JArr [short_evm_entry]))) = Some r.
Proof.
  destruct (@main_writes_the_result
              ci_process bare_host (inr (JArr [short_evm_entry])) "ghs_token"
              eq_refl ci_token_not_empty eq_refl eq_refl)
    as [_ (r & Hv & Hw & _)].
  exists r. split; assumption.
Defined.

(** ** Lookups that fail *)

(** When no user lookup succeeds, every handle of a list of strings gets
    exactly one error, in order: the format error when it is blank, the
    error of the failed lookup otherwise; a failed lookup is reported, not
    swallowed. *)
Theorem github_handles_all_reported_when_unreachable
        (h : Host) (st : RegistryValidator) (handles : list string) :
  users_unreachable h ->
  this_errors (snd (run h (validateGitHubHandles (map JStr handles)) st)) =
  (this_errors st
   ++ map (fun s =>
             if blank s then ("Invalid GitHub handle: '" ++ s ++ "'")%string
             else ("GitHub handle '" ++ s ++ "' is not valid or not found")%string)
          handles)%list.
Proof.
  intros Hun. revert st. induction handles as [|s rest IH]; intros st.
  - simpl. now rewrite app_nil_r.
  - unfold validateGitHubHandles in *. cbn [map]. rewrite run_loop_cons.
    destruct (blank s) eqn:Hb.
    + rewrite (github_body_blank h st s Hb), IH.
      cbn [with_error this_errors]. now rewrite <- app_assoc.
    + rewrite (github_body_lookup h st s Hb).
      destruct (Hun (requests st) (Js.trim s)) as [e ->].
      cbn [handle_errors]. rewrite IH. cbn [this_errors].
      now rewrite <- app_assoc.
Qed.

Lemma offline_host_users_unreachable : users_unreachable offline_host.
Proof. intros before username. eexists. reflexivity. Qed.

Lemma github_handles_all_reported_when_unreachable_witness :
  this_errors
    (snd (run offline_host (validateGitHubHandles (map JStr ["alice"; " "]))
              new_RegistryValidator)) =
  ["GitHub handle 'alice' is not valid or not found";
   "Invalid GitHub handle: ' '"].
Proof.
  exact (@github_handles_all_reported_when_unreachable
           offline_host new_RegistryValidator ["alice"; " "]
           offline_host_users_unreachable).
Defined.

Lemma urls_body_string_cases (h : Host) (st : RegistryValidator) (url : string) :
  exists c errs,
    run h (validateRepositoryUrls_body (JStr url)) st =
    (Returns c,
     {| this_errors := this_errors st ++ errs;
        requests := requests st ++ repo_lookup url |}) /\
    c <> Return /\ List.length errs <= 1.
Proof.
  unfold repo_lookup.
  destruct (github_match url) as [[owner repo]|] eqn:Hm.
  - assert (Hc : contains_github_url url) by (apply github_match_iff; eauto).
    rewrite (urls_body_match h st url (contains_not_blank Hc) Hm).
    eexists _, _. split; [reflexivity|]. split; [discriminate|].
    unfold lookup_errors. destruct (octokit h _ _) as [e|status data];
      simpl; [lia|]. destruct (status =? 200)%Z; simpl; lia.
  - apply github_match_None in Hm.
    destruct (urls_body_rejects h st Hm) as (msg & _ & ->).
    exists Continue, [msg]. unfold with_error. rewrite app_nil_r.
    split; [reflexivity|]. split; [discriminate|simpl; lia].
Qed.

(** On a list of strings the repository URL check returns; it has sent, in
    the order of the list, one existence lookup for each string in which
    the pattern finds a GitHub URL and none for the others, and it has
    appended at most one error for each string. *)
Theorem repository_urls_one_lookup_each
        (h : Host) (st : RegistryValidator) (urls : list string) :
  exists errs,
    run h (validateRepositoryUrls (map JStr urls)) st =
    (Returns tt,
     {| this_errors := this_errors st ++ errs;
        requests := requests st ++ flat_map repo_lookup urls |}) /\
    List.length errs <= List.length urls.
Proof.
  revert st. induction urls as [|url rest IH]; intros st.
  - exists []. simpl. rewrite !app_nil_r. split; [now destruct st|lia].
  - unfold validateRepositoryUrls in *. cbn [map]. rewrite run_loop_cons.
    destruct (urls_body_string_cases h st url) as (c & e1 & -> & Hc & Hl).
    match goal with
    | |- context [run h (loop_method _ _) ?s1] =>
        destruct (IH s1) as (e2 & Hrun & Hl2)
    end.
    exists (e1 ++ e2)%list.
    replace (match c with
             | Return => _
             | _ => _
             end)
      with (run h (loop_method (map JStr rest) validateRepositoryUrls_body)
                {| this_errors := this_errors st ++ e1;
                   requests := requests st ++ repo_lookup url |})
      by (destruct c; try reflexivity; contradiction).
    rewrite Hrun. cbn [this_errors requests flat_map].
    rewrite <- !app_assoc. split; [reflexivity|].
    rewrite length_app. simpl. lia.
Qed.

(** * The repository URL check against the shape of a URL *)

Lemma span_rest (f : ascii -> bool) (s a b : string) :
  Js.span f s = (a, b) ->
  b = EmptyString \/ exists c b', b = String c b' /\ f c = false.
Proof.
  revert a b. induction s as [|c s IH]; intros a b; simpl.
  - intros [= <- <-]. now left.
  - destruct (f c) eqn:E.
    + destruct (Js.span f s) as [a' b'] eqn:Es. intros [= <- <-].
      apply (IH _ _ eq_refl).
    + intros [= <- <-]. right. eauto.
Qed.

Lemma not_slash_false (c : ascii) : not_slash c = false -> c = "/"%char.
Proof.
  unfold not_slash. intros H. apply negb_false_iff in H.
  now apply Ascii.eqb_eq in H.
Qed.

Lemma match_here_at_start (s owner repo : string) :
  match_here s = Some (owner, repo) -> github_part_at_start s owner repo.
Proof.
  unfold match_here.
  destruct (Js.afterPrefix "https://github.com/" s) as [rest|] eqn:Ep;
    [|discriminate].
  apply afterPrefix_Some in Ep.
  destruct (Js.span not_slash rest) as [o rest1] eqn:Eo.
  apply span_spec in Eo as [-> Ho].
  destruct o as [|c0 o]; [discriminate|].
  destruct rest1 as [|c rest2]; [discriminate|].
  destruct (Ascii.eqb c "/") eqn:Ec; [|discriminate].
  apply Ascii.eqb_eq in Ec. subst c.
  destruct (Js.span not_slash rest2) as [r after] eqn:Er.
  pose proof (span_rest _ _ Er) as Hafter.
  apply span_spec in Er as [-> Hr].
  destruct r as [|c1 r]; [discriminate|].
  intros [= <- <-]. exists after. subst s.
  repeat split; try discriminate; try assumption.
  destruct Hafter as [->|(c & b' & -> & Hc)]; [now left|].
  right. apply not_slash_false in Hc. subst c. now exists b'.
Qed.

Lemma at_start_match_here (s owner repo : string) :
  github_part_at_start s owner repo -> match_here s = Some (owner, repo).
Proof.
  intros (after & -> & Ho & Hr & So & Sr & Hafter). unfold match_here.
  rewrite afterPrefix_app, (span_app _ _ _ So). simpl.
  rewrite append_empty_r.
  destruct owner as [|c0 owner]; [contradiction|].
  rewrite (span_app _ _ _ Sr).
  assert (Hspan : Js.span not_slash after = (EmptyString, after))
    by (destruct Hafter as [->|(rest & ->)]; reflexivity).
  rewrite Hspan. cbn [fst snd]. rewrite append_empty_r.
  destruct repo as [|c1 repo]; [contradiction|].
  reflexivity.
Qed.

Lemma starts_with_match_here (s : string) :
  starts_with_github_url s -> match_here s <> None.
Proof.
  intros (owner & repo & after & -> & Ho & Hr & So & Sr).
  destruct (match_here_found after Ho Hr So Sr) as [m ->]. discriminate.
Qed.

(** [url.match] gives the owner and the name of the first part of the
    shape, and of no other. *)
Lemma github_match_first_part (url owner repo : string) :
  github_match url = Some (owner, repo) <-> first_github_part url owner repo.
Proof.
  split.
  - revert owner repo. induction url as [|c url IH]; intros owner repo H.
    + simpl in H. discriminate.
    + cbn [github_match] in H.
      destruct (match_here (String c url)) as [m|] eqn:E.
      * injection H as ->. apply match_here_at_start in E.
        exists EmptyString, (String c url). split; [reflexivity|].
        split; [exact E|].
        intros b1 b2 Hb Hne. destruct b1; [|discriminate].
        simpl in Hb. now subst b2.
      * destruct (IH _ _ H) as (before & rest & -> & Hat & Hfirst).
        exists (String c before), rest. split; [reflexivity|].
        split; [exact Hat|].
        intros b1 b2 Hb Hne Hstart.
        destruct b1 as [|c' b1].
        -- simpl in Hb. subst b2.
           now apply starts_with_match_here in Hstart.
        -- simpl in Hb. injection Hb as -> Hb.
           exact (Hfirst b1 b2 Hb Hne Hstart).
  - intros (before & rest & -> & Hat & Hfirst).
    induction before as [|c before IH].
    + apply github_match_here, at_start_match_here, Hat.
    + change (String c before ++ rest) with (String c (before ++ rest)).
      cbn [github_match].
      destruct (match_here (String c (before ++ rest))) as [[o r]|] eqn:E.
      * exfalso. apply (Hfirst EmptyString (String c before) eq_refl).
        -- discriminate.
        -- apply match_here_Some in E as (after & E & ?).
           exists o, r, after. split; [exact E|assumption].
      * apply IH. intros b1 b2 Hb. apply (Hfirst (String c b1) b2).
        simpl. now rewrite Hb.
Qed.

Lemma strip_dot_git_spec (repo : string) :
  without_dot_git repo (strip_dot_git repo).
Proof.
  induction repo as [|c repo IH].
  - right. split; [reflexivity|]. intros [|c stem]; discriminate.
  - cbn [strip_dot_git].
    destruct (String c repo =? ".git") eqn:E.
    + apply String.eqb_eq in E. left. exact E.
    + apply String.eqb_neq in E.
      destruct IH as [IH|[IH Hstem]].
      * left. simpl. now rewrite <- IH.
      * right. rewrite IH. split; [reflexivity|].
        intros [|c' stem] H; [now apply E|].
        simpl in H. injection H as _ H. exact (Hstem stem H).
Qed.

Lemma without_dot_git_strip (repo name : string) :
  without_dot_git repo name -> strip_dot_git repo = name.
Proof.
  intros [->|[-> Hstem]].
  - apply strip_dot_git_suffix.
  - now apply strip_dot_git_unchanged.
Qed.

Lemma all_white_trimStart (s : string) :
  Js.all_chars Js.is_white s = true -> Js.trimStart s = EmptyString.
Proof.
  induction s as [|c s IH]; simpl; [reflexivity|].
  intros H. apply andb_true_iff in H as [Hc Hs]. rewrite Hc. now apply IH.
Qed.

(** [url.trim()] is empty exactly when every character is white space. *)
Lemma blank_all_white (s : string) :
  not_string_or_blank (JStr s) = Js.all_chars Js.is_white s.
Proof.
  unfold not_string_or_blank. cbn [typeof_string negb orb str].
  destruct (Js.all_chars Js.is_white s) eqn:E.
  - apply String.eqb_eq. unfold Js.trim. now rewrite all_white_trimStart.
  - apply String.eqb_neq. intros H. apply trim_empty in H. congruence.
Qed.

(** C3, as the code has it.  The iteration of [validateRepositoryUrls] for
    a string sends the existence lookup exactly when the string holds,
    somewhere, a part of the shape [https://github.com/<owner>/<repo>]
    (the pattern has no anchor).  The string then has a first such part,
    whose name runs up to the next slash or to the end; the lookup is for
    the owner of that part and for its name without a final [.git], both
    with the white space around them trimmed; and the only errors appended
    are those of the lookup.  A string that holds no such part gets exactly
    one error and no lookup: [Invalid repository URL] when all of it is
    white space, [Invalid GitHub URL format] otherwise. *)
Theorem url_accepted_iff_contains_github_url
        (h : Host) (st : RegistryValidator) (url : string) :
  (sends_lookup h st url <-> contains_github_url url) /\
  (contains_github_url url ->
   exists owner repo name,
     first_github_part url owner repo /\ without_dot_git repo name) /\
  (forall owner repo name,
     first_github_part url owner repo -> without_dot_git repo name ->
     let q := ReposGet (Js.trim owner) (Js.trim name) in
     run h (validateRepositoryUrls_body (JStr url)) st =
     (Returns Normal,
      {| this_errors :=
           this_errors st ++ lookup_errors url (octokit h (requests st) q);
         requests := requests st ++ [q] |})) /\
  (~ contains_github_url url ->
   run h (validateRepositoryUrls_body (JStr url)) st =
   (Returns Continue,
    with_error st
      (if Js.all_chars Js.is_white url
       then "Invalid repository URL: '" ++ url ++ "'"
       else "Invalid GitHub URL format: '" ++ url ++ "'"))).
Proof.
  assert (Hyes : forall owner repo name,
             first_github_part url owner repo -> without_dot_git repo name ->
             let q := ReposGet (Js.trim owner) (Js.trim name) in
             run h (validateRepositoryUrls_body (JStr url)) st =
             (Returns Normal,
              {| this_errors :=
                   this_errors st
                   ++ lookup_errors url (octokit h (requests st) q);
                 requests := requests st ++ [q] |})).
  { intros owner repo name Hfirst Hname.
    apply github_match_first_part in Hfirst.
    assert (Hc : contains_github_url url) by (apply github_match_iff; eauto).
    rewrite <- (without_dot_git_strip Hname).
    exact (urls_body_match h st url (contains_not_blank Hc) Hfirst). }
  assert (Hparts : contains_github_url url ->
                   exists owner repo name,
                     first_github_part url owner repo /\
                     without_dot_git repo name).
  { intros Hc. apply github_match_iff in Hc as [[owner repo] Hm].
    exists owner, repo, (strip_dot_git repo).
    split; [now apply github_match_first_part|apply strip_dot_git_spec]. }
  assert (Hno : ~ contains_github_url url ->
                run h (validateRepositoryUrls_body (JStr url)) st =
                (Returns Continue,
                 with_error st
                   (if Js.all_chars Js.is_white url
                    then "Invalid repository URL: '" ++ url ++ "'"
                    else "Invalid GitHub URL format: '" ++ url ++ "'"))).
  { intros Hn. apply github_match_None in Hn.
    rewrite <- blank_all_white.
    destruct (not_string_or_blank (JStr url)) eqn:Hb.
    - now apply urls_body_blank.
    - now apply urls_body_no_match. }
  split; [split|split; [exact Hparts|split; [exact Hyes|exact Hno]]].
  - intros (owner & repo & Hreq).
    destruct (github_match url) as [m|] eqn:Hm.
    + apply github_match_iff. eauto.
    + exfalso. apply github_match_None in Hm.
      rewrite (Hno Hm) in Hreq. now apply no_lookup_sent in Hreq.
  - intros Hc. destruct (Hparts Hc) as (owner & repo & name & Hf & Hn).
    unfold sends_lookup. rewrite (Hyes owner repo name Hf Hn). simpl. eauto.
Qed.

Lemma two_urls_first_part : first_github_part two_urls " acme " "widget.git".
Proof. apply github_match_first_part. reflexivity. Qed.

Lemma widget_git_without_dot_git : without_dot_git "widget.git" "widget".
Proof. left. reflexivity. Qed.

Lemma url_accepted_iff_contains_github_url_witness :
  run bare_host (validateRepositoryUrls_body (JStr two_urls))
      new_RegistryValidator =
  (Returns Normal,
   {| this_errors := []; requests := [ReposGet "acme" "widget"] |}) /\
  sends_lookup bare_host new_RegistryValidator tree_url /\
  run bare_host (validateRepositoryUrls_body (JStr not_a_url))
      new_RegistryValidator =
  (Returns Continue,
   with_error new_RegistryValidator "Invalid GitHub URL format: 'not-a-url'").
Proof.
  destruct (url_accepted_iff_contains_github_url
              bare_host new_RegistryValidator two_urls)
    as (_ & _ & Hyes & _).
  destruct (url_accepted_iff_contains_github_url
              bare_host new_RegistryValidator tree_url)
    as (Hiff & _).
  destruct (url_accepted_iff_contains_github_url
              bare_host new_RegistryValidator not_a_url)
    as (_ & _ & _ & Hno).
  split; [|split].
  - exact (Hyes " acme " "widget.git" "widget" two_urls_first_part
                widget_git_without_dot_git).
  - apply Hiff, tree_url_contains.
  - exact (Hno not_a_url_contains_nothing).
Defined.
